(** * faunadb-python: the HTTP client ([faunadb/client.py])

    A shallow embedding of [Client]: construction, secret parsing, the
    request executor with and without logging, and the status-code
    dispatch of [_handle_response]. *)

From Stdlib Require Import ZArith String Ascii List Decimal DecimalString.
From stdpp Require Import gmap strings list fin_maps.

Local Open Scope Z_scope.
Local Open Scope string_scope.

(** ** Values *)

(** The values that travel through the client: what [parse_json] produces,
    what [to_json] consumes and what a query dict holds.  [JNull] is
    Python's [None]; a dict is a finite map over string keys. *)
#[warnings="-register-all"]
Inductive json : Type :=
  | JNull
  | JBool (b : bool)
  | JNum (n : Z)
  | JStr (s : string)
  | JList (l : list json)
  | JObj (m : gmap string json).

(** [v is None] *)
Definition is_none (v : json) : bool :=
  match v with JNull => true | _ => false end.

(** Python truthiness, as used by [if data:]. *)
Definition truthy (v : json) : bool :=
  match v with
  | JNull => false
  | JBool b => b
  | JNum n => negb (Z.eqb n 0)
  | JStr s => negb (String.eqb s "")
  | JList l => match l with [] => false | _ => true end
  | JObj m => negb (bool_decide (m = ∅))
  end.

(** ** Exceptions *)

(** The classes imported from [.errors], and the built-in ones the code can
    let escape. *)
Inductive exn_class : Type :=
  | BadRequest
  | Unauthorized
  | PermissionDenied
  | NotFound
  | MethodNotAllowed
  | InternalError
  | UnavailableError
  | FaunaHTTPError
  | FaunaError
  | KeyError
  | TypeError
  | ValueError
  | ConnectionError.

(** An exception instance: its class and the single constructor argument
    every [raise] in the module passes. *)
Record exn : Type := Exn { exc_class : exn_class; exc_arg : json }.

(** The library's own taxonomy: [FaunaError] and what is imported next to it
    from [.errors]. *)
Definition is_fauna_error (c : exn_class) : bool :=
  match c with
  | BadRequest | Unauthorized | PermissionDenied | NotFound
  | MethodNotAllowed | InternalError | UnavailableError
  | FaunaHTTPError | FaunaError => true
  | KeyError | TypeError | ValueError | ConnectionError => false
  end.

Inductive result (A : Type) : Type :=
  | Ok (a : A)
  | Raise (e : exn).
Arguments Ok {A} a.
Arguments Raise {A} e.

(** ** Responses and status codes *)

(** [key.lower()], on ASCII letters. *)
Definition lower_ascii (c : ascii) : ascii :=
  let n := nat_of_ascii c in
  if (Nat.leb 65 n && Nat.leb n 90)%bool then ascii_of_nat (n + 32) else c.

Fixpoint lower (s : string) : string :=
  match s with
  | EmptyString => EmptyString
  | String c r => String (lower_ascii c) (lower r)
  end.

(** A response.  [headers] is a [requests] [CaseInsensitiveDict]: its
    store keeps each entry under the lower-cased key, together with the
    key as it was written. *)
Record Response : Type := mkResponse {
  status_code : Z;
  headers : gmap string (string * string);
  text : string
}.

(** [headers.get(key, default)]: the lookup ignores case. *)
Definition headers_get (h : gmap string (string * string))
    (key default : string) : string :=
  match h !! lower key with
  | Some (_, v) => v
  | None => default
  end.

(** [dict(headers)]: the entries under the keys as they were written. *)
Definition headers_dict (h : gmap string (string * string))
  : gmap string json :=
  list_to_map ((λ kv, (kv.2.1, JStr kv.2.2)) <$> map_to_list h).

(** [requests.codes] *)
Module codes.
Definition bad_request : Z := 400.
Definition unauthorized : Z := 401.
Definition forbidden : Z := 403.
Definition not_found : Z := 404.
Definition method_not_allowed : Z := 405.
Definition internal_server_error : Z := 500.
Definition unavailable : Z := 503.
End codes.

(** [response_dict["resource"]]: a dict is looked up, anything else cannot
    be indexed by a string. *)
Definition getitem (d : json) (key : string) : result json :=
  match d with
  | JObj m =>
      match m !! key with
      | Some v => Ok v
      | None => Raise (Exn KeyError (JStr key))
      end
  | _ => Raise (Exn TypeError JNull)
  end.

Definition _handle_response (response : Response) (response_dict : json)
  : result json :=
  let code := status_code response in
  if (200 <=? code)%Z && (code <=? 299)%Z then
    getitem response_dict "resource"
  else if Z.eqb code codes.bad_request then
    Raise (Exn BadRequest response_dict)
  else if Z.eqb code codes.unauthorized then
    Raise (Exn Unauthorized response_dict)
  else if Z.eqb code codes.forbidden then
    Raise (Exn PermissionDenied response_dict)
  else if Z.eqb code codes.not_found then
    Raise (Exn NotFound response_dict)
  else if Z.eqb code codes.method_not_allowed then
    Raise (Exn MethodNotAllowed response_dict)
  else if Z.eqb code codes.internal_server_error then
    Raise (Exn InternalError response_dict)
  else if Z.eqb code codes.unavailable then
    Raise (Exn UnavailableError response_dict)
  else
    Raise (Exn FaunaHTTPError response_dict).

(** ** Strings *)

(** [s.split(sep)] and [s.split(sep, maxsplit)] for a one-character
    separator: at most [maxsplit] cuts, from the left; the result is never
    empty. *)
Fixpoint split (sep : ascii) (maxsplit : option nat) (s : string)
  : list string :=
  match s with
  | EmptyString => [EmptyString]
  | String a r =>
      let cut :=
        match maxsplit with
        | Some O => false
        | _ => Ascii.eqb a sep
        end in
      if cut then
        EmptyString :: split sep (Nat.pred <$> maxsplit) r
      else
        match split sep maxsplit r with
        | h :: t => String a h :: t
        | [] => [String a EmptyString]
        end
  end.

(** [sep.join(parts)] *)
Definition join (sep : string) (parts : list string) : string :=
  String.concat sep parts.

(** ["%s" % n] and ["%i" % n] for an integer. *)
Definition str_of_int (n : Z) : string :=
  NilZero.string_of_int (Z.to_int n).

Definition colon : ascii := ":"%char.
Definition newline : ascii := "010"%char.

(** ** Secrets *)

(** What the constructor accepts as [secret]: a tuple or a string. *)
Inductive secret_t : Type :=
  | SecretTuple (entries : list string)
  | SecretStr (s : string).

Definition _parse_secret (secret : secret_t) : result (list string) :=
  match secret with
  | SecretTuple entries =>
      if negb (Nat.eqb (length entries) 2) then
        Raise (Exn FaunaError
                 (JStr "Secret tuple must have exactly two entries"))
      else Ok entries
  | SecretStr s =>
      let pair := split colon (Some 1%nat) s in
      let pair :=
        if Nat.eqb (length pair) 1 then (pair ++ [EmptyString])%list else pair in
      Ok pair
  end.

(** ** The client object *)

Record Logger : Type := getLogger { logger_name : string }.

Record Session : Type := mkSession {
  auth : option (list string);
  session_headers : gmap string string;
  session_timeout : option Z
}.

Record Client : Type := mkClient {
  logger : option Logger;
  domain : string;
  scheme : string;
  port : Z;
  session : Session;
  base_url : string
}.

(** [objects.Ref], as far as the client looks into it. *)
Record Ref : Type := mkRef { value : string }.

Inductive path_t : Type :=
  | PathStr (s : string)
  | PathRef (r : Ref).

(** The module-level [_debug_logger], fixed at import time from the
    environment. *)
Definition _debug_logger (environ : gmap string string) : option Logger :=
  match environ !! "FAUNA_DEBUG" with
  | Some v => if String.eqb v "" then None
              else Some (getLogger "faunadb.client")
  | None => None
  end.

Definition default_port (scheme : string) (port : option Z) : Z :=
  match port with
  | None => if String.eqb scheme "https" then 443 else 80
  | Some p => p
  end.

Section Init.
(** [requests.Session()]'s own default headers. *)
Variable default_headers : gmap string string.

Definition Session_new : Session :=
  {| auth := None;
     session_headers := default_headers;
     session_timeout := None |}.

Definition __init__ (logger : option Logger) (domain scheme : string)
    (port : option Z) (timeout : Z) (secret : option secret_t)
  : result Client :=
  let port := default_port scheme port in
  let s := Session_new in
  let with_auth :=
    match secret with
    | Some sec =>
        match _parse_secret sec with
        | Ok t => Ok (Some t)
        | Raise e => Raise e
        end
    | None => Ok (auth s)
    end in
  match with_auth with
  | Raise e => Raise e
  | Ok a =>
      Ok {| logger := logger;
            domain := domain;
            scheme := scheme;
            port := port;
            session :=
              {| auth := a;
                 session_headers :=
                   <["Content-Type" := "application/json;charset=utf-8"]>
                     (<["Accept-Encoding" := "gzip"]> (session_headers s));
                 session_timeout := Some timeout |};
            base_url := scheme ++ "://" ++ domain ++ ":" ++ str_of_int port |}
  end.
End Init.

(** ** Requests *)

(** [requests.Request(action, url, params=..., data=...)] *)
Record Request : Type := mkRequest {
  action : string;
  url : string;
  params : option (gmap string json);
  data : string
}.

(** [session.prepare_request(req)]: the request together with the session
    settings (credentials, headers, timeout) it is sent under.  This is
    the call on credentials the constructor can store, none or a pair;
    the library refuses any other tuple. *)
Record PreparedRequest : Type := prepare_request {
  prepared_by : Session;
  request : Request
}.

(** ["Credentials: %s:%s" % auth]: the format has two slots, so the tuple
    must have two entries. *)
Definition format_credentials (t : list string) : result string :=
  match t with
  | [u; p] => Ok ("Credentials: " ++ u ++ ":" ++ p)
  | _ => Raise (Exn TypeError JNull)
  end.

Definition indent_str : string := "  ".
Definition newline_str : string := String newline EmptyString.

(** The indentation done by [_log]. *)
Definition indent (logged : string) : string :=
  indent_str ++ join (newline_str ++ indent_str) (split newline None logged).

(** [{k: v for k, v in query.iteritems() if v is not None}] *)
Definition drop_none (query : gmap string json) : gmap string json :=
  filter (λ kv, is_none kv.2 = false) query.

Section Execute.
(** The outside world: the server behind the session, the wall clock, and
    the collaborators of [._json]. *)
Context {NetState ClockState Time : Type}.
Variable send : PreparedRequest → NetState → result Response * NetState.
Variable time : ClockState → Time * ClockState.
(** [int((real_time_end - real_time_begin) * 1000)] *)
Variable elapsed_ms : Time → Time → Z.
(** [to_json(value, pretty=...)] *)
Variable to_json : bool → json → string.
Variable parse_json : string → result json.
(** ["%s" % v] *)
Variable str : json → string.
(** [d.iteritems()]: the items of a dict, in the order the interpreter
    yields them. *)
Variable iteritems : gmap string json → list (string * json).

Record World : Type := mkWorld {
  net : NetState;
  clock : ClockState;
  log_lines : list (Logger * string);
  sent : list PreparedRequest
}.

(** Computations that read and change the world and may raise. *)
Definition M (A : Type) : Type := World → result A * World.

Definition ret {A} (a : A) : M A := fun w => (Ok a, w).

Definition bind {A B} (c : M A) (k : A → M B) : M B :=
  fun w =>
    match c w with
    | (Ok a, w') => k a w'
    | (Raise e, w') => (Raise e, w')
    end.

Definition lift {A} (r : result A) : M A := fun w => (r, w).

Notation "x <- c ;; k" := (bind c (fun x => k))
  (at level 100, c at next level, right associativity).
Notation "c ;; k" := (bind c (fun _ => k))
  (at level 100, right associativity).

(** [lg.debug(line)] *)
Definition debug (lg : Logger) (line : string) : M unit :=
  fun w =>
    (Ok tt,
     {| net := net w; clock := clock w;
        log_lines := (log_lines w ++ [(lg, line)])%list;
        sent := sent w |}).

(** [time()] *)
Definition now : M Time :=
  fun w =>
    let '(t, c) := time (clock w) in
    (Ok t,
     {| net := net w; clock := c;
        log_lines := log_lines w; sent := sent w |}).

(** [self.session.send(prepared)] *)
Definition session_send (p : PreparedRequest) : M Response :=
  fun w =>
    let '(r, n) := send p (net w) in
    (r,
     {| net := n; clock := clock w;
        log_lines := log_lines w;
        sent := (sent w ++ [p])%list |}).

Definition _log (environ : gmap string string) (self : Client)
    (indented : bool) (logged : string) : M unit :=
  let logged := if indented then indent logged else logged in
  match _debug_logger environ with
  | Some lg => debug lg logged
  | None => ret tt
  end ;;
  match logger self with
  | Some lg => debug lg logged
  | None => ret tt
  end.

Definition _query_string_for_logging (query : option (gmap string json))
  : string :=
  match query with
  | None => ""
  | Some q =>
      if bool_decide (q = ∅) then ""
      else "?" ++ join "&"
             ((λ kv, kv.1 ++ "=" ++ str kv.2) <$> iteritems q)
  end.

Definition _execute_without_logging (self : Client) (action path : string)
    (data : json) (query : option (gmap string json)) : M Response :=
  let url := base_url self ++ "/" ++ path in
  let req := mkRequest action url query (to_json false data) in
  session_send (prepare_request (session self) req).

Definition _execute (environ : gmap string string) (self : Client)
    (action : string) (path : path_t) (data : json)
    (query : option (gmap string json)) : M json :=
  let path :=
    match path with
    | PathRef r => value r
    | PathStr s => s
    end in
  let query := drop_none <$> query in
  if bool_decide (logger self ≠ None ∨ _debug_logger environ ≠ None) then
    _log environ self false
      ("Fauna " ++ action ++ " /" ++ path
                ++ _query_string_for_logging query) ;;
    match auth (session self) with
    | None => _log environ self true "Credentials: None"
    | Some t =>
        line <- lift (format_credentials t) ;;
        _log environ self true line
    end ;;
    (if truthy data then
       _log environ self true ("Request JSON: " ++ to_json true data)
     else ret tt) ;;
    real_time_begin <- now ;;
    response <- _execute_without_logging self action path data query ;;
    real_time_end <- now ;;
    let real_time := elapsed_ms real_time_begin real_time_end in
    let headers_json :=
      to_json true (JObj (headers_dict (headers response))) in
    response_dict <- lift (parse_json (text response)) ;;
    let response_json := to_json true response_dict in
    _log environ self true ("Response headers: " ++ headers_json) ;;
    _log environ self true ("Response JSON: " ++ response_json) ;;
    _log environ self true
      ("Response (" ++ str_of_int (status_code response)
         ++ "): API processing "
         ++ headers_get (headers response)
              "X-HTTP-Request-Processing-Time" "N/A"
         ++ "ms, network latency " ++ str_of_int real_time ++ "ms") ;;
    lift (_handle_response response response_dict)
  else
    response <- _execute_without_logging self action path data query ;;
    response_dict <- lift (parse_json (text response)) ;;
    lift (_handle_response response response_dict).

Definition get (environ : gmap string string) (self : Client)
    (path : path_t) (query : option (gmap string json)) : M json :=
  _execute environ self "GET" path JNull query.

Definition post (environ : gmap string string) (self : Client)
    (path : path_t) (data : json) : M json :=
  _execute environ self "POST" path data None.

Definition put (environ : gmap string string) (self : Client)
    (path : path_t) (data : json) : M json :=
  _execute environ self "PUT" path data None.

Definition patch (environ : gmap string string) (self : Client)
    (path : path_t) (data : json) : M json :=
  _execute environ self "PATCH" path data None.

Definition delete (environ : gmap string string) (self : Client)
    (path : path_t) (data : json) : M json :=
  _execute environ self "DELETE" path data None.

Definition query (environ : gmap string string) (self : Client)
    (expression : json) : M json :=
  _execute environ self "POST" (PathStr "") expression None.

Definition ping (environ : gmap string string) (self : Client)
    (scope timeout : json) : M json :=
  get environ self (PathStr "ping")
    (Some (<["scope" := scope]> (<["timeout" := timeout]> ∅))).
End Execute.

(** ** Vocabulary of the properties *)

(** The status table of the specification (section 4.1), error rows. *)
Definition spec_error_table : list (Z * exn_class) :=
  [ (400, BadRequest); (401, Unauthorized); (403, PermissionDenied);
    (404, NotFound); (405, MethodNotAllowed); (500, InternalError);
    (503, UnavailableError) ].

Definition is_success (code : Z) : Prop := (200 ≤ code ≤ 299)%Z.

Definition is_listed_error (code : Z) : Prop :=
  ∃ cls, In (code, cls) spec_error_table.

(** A parsed body without a [resource] field: a mapping that has no such
    key, or no mapping at all. *)
Definition lacks_resource (body : json) : Prop :=
  match body with
  | JObj m => m !! "resource" = None
  | _ => True
  end.

(** [c in s] for a character. *)
Fixpoint contains (c : ascii) (s : string) : bool :=
  match s with
  | EmptyString => false
  | String a r => Ascii.eqb a c || contains c r
  end.

(** What the constructor guarantees about the stored credentials. *)
Definition well_formed (self : Client) : Prop :=
  match auth (session self) with
  | Some t => length t = 2%nat
  | None => True
  end.

(** The credentials line of the log for a well-formed client. *)
Definition credentials_line (self : Client) : string :=
  match auth (session self) with
  | Some [u; p] => "Credentials: " ++ u ++ ":" ++ p
  | _ => "Credentials: None"
  end.

Definition path_string (path : path_t) : string :=
  match path with
  | PathRef r => value r
  | PathStr s => s
  end.

(** The lines a logging call writes before it sends the request. *)
Definition request_log (str : json → string)
    (iteritems : gmap string json → list (string * json))
    (to_json : bool → json → string) (self : Client) (action : string)
    (path : path_t) (data : json) (query : option (gmap string json))
  : list string :=
  app
    [ "Fauna " ++ action ++ " /" ++ path_string path
        ++ _query_string_for_logging str iteritems (drop_none <$> query);
      indent (credentials_line self) ]
    (if truthy data
     then [ indent ("Request JSON: " ++ to_json true data) ]
     else []).

(** The lines it writes once the response is there and parsed. *)
Definition response_log (to_json : bool → json → string)
    (response : Response) (response_dict : json) (latency : Z)
  : list string :=
  [ indent ("Response headers: "
              ++ to_json true (JObj (headers_dict (headers response))));
    indent ("Response JSON: " ++ to_json true response_dict);
    indent ("Response (" ++ str_of_int (status_code response)
              ++ "): API processing "
              ++ headers_get (headers response)
                   "X-HTTP-Request-Processing-Time" "N/A"
              ++ "ms, network latency " ++ str_of_int latency ++ "ms") ].

Section Observation.
Context {NetState ClockState Time : Type}.
Variable send : PreparedRequest → NetState → result Response * NetState.
Variable parse_json : string → result json.

Local Abbreviation World := (@World NetState ClockState).
Local Abbreviation M := (@M NetState ClockState).

(** Two worlds that differ at most in the emitted log lines and in the
    clock: same server state, same requests on the wire. *)
Definition same_traffic (w1 w2 : World) : Prop :=
  net w1 = net w2 ∧ sent w1 = sent w2.

(** Two computations that cannot be told apart by their result and
    their traffic. *)
Definition sim {A} (c1 c2 : M A) : Prop :=
  ∀ w1 w2, same_traffic w1 w2 →
    (c1 w1).1 = (c2 w2).1 ∧ same_traffic (c1 w1).2 (c2 w2).2.

(** A computation that always returns and causes no traffic. *)
Definition quiet {A} (c : M A) : Prop :=
  ∀ w, (∃ a, (c w).1 = Ok a) ∧ same_traffic (c w).2 w.

(** The request [_execute] hands to the session. *)
Definition wire (to_json : bool → json → string) (self : Client)
    (action : string) (path : path_t) (data : json)
    (query : option (gmap string json)) : PreparedRequest :=
  prepare_request (session self)
    (mkRequest action (base_url self ++ "/" ++ path_string path)
       (drop_none <$> query) (to_json false data)).

(** What the caller gets for a prepared request in a given server
    state: transport failure, parse failure, or the dispatch on the
    status code. *)
Definition answer (p : PreparedRequest) (n : NetState) : result json :=
  match (send p n).1 with
  | Raise e => Raise e
  | Ok response =>
      match parse_json (text response) with
      | Raise e => Raise e
      | Ok response_dict => _handle_response response response_dict
      end
  end.

(** One round trip and nothing else: send, parse, dispatch. *)
Definition round_trip (p : PreparedRequest) : M json :=
  bind (session_send send p) (fun response =>
  bind (lift (parse_json (text response))) (fun response_dict =>
  lift (_handle_response response response_dict))).

(** A computation that only appends log lines, each addressed to a logger
    accepted by [ok]. *)
Definition logs_to {A} (ok : Logger → Prop) (c : M A) : Prop :=
  ∀ w, ∃ extra,
    log_lines (c w).2 = (log_lines w ++ extra)%list
    ∧ Forall (λ entry, ok entry.1) extra.
End Observation.

(** A concrete world to run the client in. *)
Module Sample.
Definition frog : json := JObj (<["name" := JStr "Scamper"]> ∅).

Definition send (p : PreparedRequest) (n : nat)
  : result Response * nat :=
  (Ok (mkResponse 200 ∅ "{}"), S n).

Definition time (c : Z) : Z * Z := (c, c + 7).
Definition elapsed_ms (t0 t1 : Z) : Z := t1 - t0.
Definition to_json (pretty : bool) (v : json) : string :=
  match v with
  | JNull => "null"
  | JStr s => s
  | JNum n => str_of_int n
  | _ => if pretty then "{ }" else "{}"
  end.
Definition parse_json (s : string) : result json :=
  Ok (JObj (<["resource" := frog]> ∅)).
Definition str (v : json) : string := to_json false v.
Definition iteritems (d : gmap string json) : list (string * json) :=
  map_to_list d.

Definition world : @World nat Z := mkWorld O 0 [] [].

Definition self : Client :=
  {| logger := Some (getLogger "app");
     domain := "rest.faunadb.com";
     scheme := "https";
     port := 443;
     session :=
       {| auth := Some ["u"; "p"];
          session_headers :=
            <["Content-Type" := "application/json;charset=utf-8"]>
              (<["Accept-Encoding" := "gzip"]> ∅);
          session_timeout := Some 60 |};
     base_url := "https://rest.faunadb.com:443" |}.

(** A server that cannot be reached. *)
Definition refuse (p : PreparedRequest) (n : nat)
  : result Response * nat :=
  (Raise (Exn ConnectionError (JStr "refused")), n).

(** A server that is down for maintenance. *)
Definition unavailable (p : PreparedRequest) (n : nat)
  : result Response * nat :=
  (Ok (mkResponse 503 ∅ "{}"), S n).

(** A server that reports its processing time, under a header written in
    lower case. *)
Definition timed (p : PreparedRequest) (n : nat)
  : result Response * nat :=
  (Ok (mkResponse 200
         (<["x-http-request-processing-time" :=
              ("x-http-request-processing-time", "12")]> ∅)
         "{}"),
   S n).

(** A body that is no JSON. *)
Definition garbled (s : string) : result json :=
  Raise (Exn ValueError (JStr s)).

(** The sample client without a logger. *)
Definition silent : Client :=
  mkClient None "rest.faunadb.com" "https" 443
    (session self) (base_url self).

(** A client whose [session.auth] was overwritten with a triple. *)
Definition tampered : Client :=
  mkClient (Some (getLogger "app")) "rest.faunadb.com" "https" 443
    (mkSession (Some ["u"; "p"; "q"]) ∅ (Some 60))
    "https://rest.faunadb.com:443".
End Sample.

(** * Properties *)

(** ** Status dispatch *)

Lemma not_success_test (code : Z) :
  ¬ is_success code → (200 <=? code)%Z && (code <=? 299)%Z = false.
Proof.
  unfold is_success. intros H.
  destruct (200 <=? code)%Z eqn:E1; destruct (code <=? 299)%Z eqn:E2;
    try reflexivity.
  exfalso. apply H. lia.
Qed.

Lemma success_test (code : Z) :
  is_success code → (200 <=? code)%Z && (code <=? 299)%Z = true.
Proof.
  unfold is_success. intros [H1 H2].
  apply andb_true_intro. split; apply Z.leb_le; assumption.
Qed.

(** C1: a status code of the error table raises the error class of its
    row, and the raised error holds the parsed body. *)
Theorem handle_response_listed_error
    (code : Z) (cls : exn_class) (response : Response) (body : json) :
  In (code, cls) spec_error_table →
  status_code response = code →
  _handle_response response body = Raise (Exn cls body).
Proof.
  intros Hin Hcode. unfold _handle_response. rewrite Hcode. clear Hcode.
  simpl in Hin.
  repeat (destruct Hin as [Heq | Hin];
          [ inversion Heq; subst; reflexivity | ]).
  contradiction.
Qed.

Lemma handle_response_listed_error_witness :
  _handle_response (mkResponse 404 ∅ "{}") (JObj ∅)
  = Raise (Exn NotFound (JObj ∅)).
Proof.
  apply (handle_response_listed_error 404 NotFound).
  - simpl. right. right. right. left. reflexivity.
  - reflexivity.
Defined.

(** C2: a 2xx response whose parsed body is a mapping with a [resource]
    field returns the value of that field. *)
Theorem handle_response_success
    (response : Response) (m : gmap string json) (v : json) :
  is_success (status_code response) →
  m !! "resource" = Some v →
  _handle_response response (JObj m) = Ok v.
Proof.
  intros Hs Hm. unfold _handle_response.
  rewrite (success_test _ Hs). simpl. rewrite Hm. reflexivity.
Qed.

Lemma handle_response_success_witness :
  _handle_response (mkResponse 200 ∅ "{}")
    (JObj (<["resource" := JNum 7]> ∅)) = Ok (JNum 7).
Proof.
  apply handle_response_success.
  - unfold is_success. simpl. lia.
  - reflexivity.
Defined.

(** C3 as stated fails: status 200 with the empty mapping raises
    [KeyError], which is outside the taxonomy. *)
Lemma missing_resource_not_taxonomy :
  ¬ (∀ (response : Response) (body : json),
       is_success (status_code response) →
       lacks_resource body →
       ∃ e, _handle_response response body = Raise e
            ∧ is_fauna_error (exc_class e) = true).
Proof.
  intros H.
  destruct (H (mkResponse 200 ∅ "{}") (JObj ∅)) as [e [Hr Ht]].
  - unfold is_success. simpl. lia.
  - reflexivity.
  - vm_compute in Hr. inversion Hr. subst e. discriminate Ht.
Qed.

(** C3, amended: a 2xx response whose parsed body lacks [resource] fails
    with the lookup fault itself, which is no error of the taxonomy: a
    [KeyError] for the key when the body is a mapping, a [TypeError] when
    the body is no mapping at all. *)
Theorem handle_response_missing_resource
    (response : Response) (body : json) :
  is_success (status_code response) →
  lacks_resource body →
  ∃ e, _handle_response response body = Raise e
       ∧ is_fauna_error (exc_class e) = false
       ∧ (∀ m, body = JObj m → e = Exn KeyError (JStr "resource"))
       ∧ ((∀ m, body ≠ JObj m) → exc_class e = TypeError).
Proof.
  intros Hs Hl. unfold _handle_response.
  rewrite (success_test _ Hs).
  destruct body as [ | b | n | s | l | m ]; simpl in *;
    try (eexists; split; [ reflexivity | split; [ reflexivity | split;
           [ intros m' Hm'; discriminate Hm' | intros _; reflexivity ] ] ]).
  rewrite Hl. eexists. split; [ reflexivity | ].
  split; [ reflexivity | ].
  split; [ intros; reflexivity | ].
  intros Hno. exfalso. exact (Hno m eq_refl).
Qed.

Lemma handle_response_missing_resource_witness :
  ∃ e, _handle_response (mkResponse 204 ∅ "{}")
         (JObj (<["errors" := JList []]> ∅)) = Raise e
       ∧ is_fauna_error (exc_class e) = false
       ∧ (∀ m, JObj (<["errors" := JList []]> ∅) = JObj m →
               e = Exn KeyError (JStr "resource"))
       ∧ ((∀ m, JObj (<["errors" := JList []]> ∅) ≠ JObj m) →
          exc_class e = TypeError).
Proof.
  apply handle_response_missing_resource.
  - unfold is_success. simpl. lia.
  - reflexivity.
Defined.

(** C4 as stated fails: the errors raised for 418 and for 502 with the
    same body are one and the same value, so no reading of the raised
    error gives back the status code. *)
Lemma generic_error_forgets_status :
  ¬ (∃ status_of : exn → Z,
       ∀ (response : Response) (body : json),
         ¬ is_success (status_code response) →
         ¬ is_listed_error (status_code response) →
         ∃ e, _handle_response response body = Raise e
              ∧ exc_class e = FaunaHTTPError
              ∧ exc_arg e = body
              ∧ status_of e = status_code response).
Proof.
  intros [status_of H].
  assert (Hout : ∀ code, code = 418 ∨ code = 502 →
            ¬ is_success code ∧ ¬ is_listed_error code).
  { intros code Hc. split.
    - unfold is_success. lia.
    - intros [cls Hin]. simpl in Hin.
      repeat (destruct Hin as [Heq | Hin];
              [ inversion Heq; lia | ]).
      contradiction. }
  destruct (Hout 418 (or_introl eq_refl)) as [Ha1 Ha2].
  destruct (Hout 502 (or_intror eq_refl)) as [Hb1 Hb2].
  destruct (H (mkResponse 418 ∅ "") JNull Ha1 Ha2) as [e1 [Hr1 [_ [_ Hs1]]]].
  destruct (H (mkResponse 502 ∅ "") JNull Hb1 Hb2) as [e2 [Hr2 [_ [_ Hs2]]]].
  vm_compute in Hr1, Hr2. inversion Hr1. inversion Hr2. subst e1 e2.
  simpl in Hs1, Hs2. rewrite Hs1 in Hs2. discriminate Hs2.
Qed.

(** C4, amended: every other status code raises the generic HTTP error,
    built from the parsed body alone. *)
Theorem handle_response_generic_error
    (response : Response) (body : json) :
  ¬ is_success (status_code response) →
  ¬ is_listed_error (status_code response) →
  _handle_response response body = Raise (Exn FaunaHTTPError body).
Proof.
  intros Hs Hl. unfold _handle_response.
  rewrite (not_success_test _ Hs).
  assert (Hne : ∀ c cls, In (c, cls) spec_error_table →
                  Z.eqb (status_code response) c = false).
  { intros c cls Hin. apply Z.eqb_neq. intros Heq. apply Hl.
    exists cls. rewrite Heq. exact Hin. }
  unfold codes.bad_request, codes.unauthorized, codes.forbidden,
    codes.not_found, codes.method_not_allowed,
    codes.internal_server_error, codes.unavailable.
  rewrite (Hne 400 BadRequest), (Hne 401 Unauthorized),
    (Hne 403 PermissionDenied), (Hne 404 NotFound),
    (Hne 405 MethodNotAllowed), (Hne 500 InternalError),
    (Hne 503 UnavailableError); simpl; auto 10.
Qed.

Lemma not_listed_418 : ¬ is_listed_error 418.
Proof.
  intros [cls Hin]. simpl in Hin.
  repeat (destruct Hin as [Heq | Hin]; [ inversion Heq | ]).
  contradiction.
Defined.

Lemma handle_response_generic_error_witness :
  _handle_response (mkResponse 418 ∅ "teapot") (JStr "teapot")
  = Raise (Exn FaunaHTTPError (JStr "teapot")).
Proof.
  apply handle_response_generic_error.
  - unfold is_success. simpl. lia.
  - simpl. exact not_listed_418.
Defined.

(** ** Secret parsing *)

Lemma split_exhausted (sep : ascii) (s : string) :
  split sep (Some O) s = [s].
Proof.
  induction s as [ | a r IH ]; simpl.
  - reflexivity.
  - rewrite IH. reflexivity.
Qed.

Lemma split_no_separator (sep : ascii) (k : option nat) (s : string) :
  contains sep s = false → split sep k s = [s].
Proof.
  induction s as [ | a r IH ]; simpl; intros H.
  - reflexivity.
  - apply orb_false_elim in H. destruct H as [Ha Hr].
    rewrite Ha. rewrite (IH Hr).
    destruct k as [ [ | n ] | ]; reflexivity.
Qed.

Lemma split_first_separator (sep : ascii) (u p : string) :
  contains sep u = false →
  split sep (Some 1%nat) (u ++ String sep p) = [u; p].
Proof.
  induction u as [ | a r IH ]; simpl; intros H.
  - rewrite Ascii.eqb_refl. simpl. rewrite split_exhausted. reflexivity.
  - apply orb_false_elim in H. destruct H as [Ha Hr].
    rewrite Ha. rewrite (IH Hr). reflexivity.
Qed.

(** C5: a two-entry tuple is kept; a string is cut at its first colon
    only; a string without colon gets the empty password; a tuple of any
    other length raises [FaunaError]. *)
Theorem parse_secret_shapes
    (a b u p extra : string) (entries : list string) :
  contains colon u = false →
  length entries ≠ 2%nat →
  _parse_secret (SecretTuple [a; b]) = Ok [a; b]
  ∧ _parse_secret (SecretStr (u ++ ":" ++ p)) = Ok [u; p]
  ∧ _parse_secret (SecretStr (u ++ ":" ++ p ++ ":" ++ extra))
    = Ok [u; p ++ ":" ++ extra]
  ∧ _parse_secret (SecretStr u) = Ok [u; ""]
  ∧ _parse_secret (SecretTuple entries)
    = Raise (Exn FaunaError
               (JStr "Secret tuple must have exactly two entries")).
Proof.
  intros Hu Hlen.
  assert (Hcut : ∀ rest, _parse_secret (SecretStr (u ++ ":" ++ rest))
                          = Ok [u; rest]).
  { intros rest. unfold _parse_secret.
    change (":" ++ rest) with (String colon rest).
    rewrite (split_first_separator colon u rest Hu). reflexivity. }
  split; [ reflexivity | ].
  split; [ apply Hcut | ].
  split; [ apply Hcut | ].
  split.
  - unfold _parse_secret. rewrite (split_no_separator colon _ u Hu).
    reflexivity.
  - unfold _parse_secret.
    destruct (Nat.eqb (length entries) 2) eqn:E.
    + apply Nat.eqb_eq in E. contradiction.
    + reflexivity.
Qed.

Lemma parse_secret_shapes_witness :
  _parse_secret (SecretTuple ["u"; "p"]) = Ok ["u"; "p"]
  ∧ _parse_secret (SecretStr "u:p") = Ok ["u"; "p"]
  ∧ _parse_secret (SecretStr "u:p:extra") = Ok ["u"; "p:extra"]
  ∧ _parse_secret (SecretStr "u") = Ok ["u"; ""]
  ∧ _parse_secret (SecretTuple ["u"; "p"; "q"])
    = Raise (Exn FaunaError
               (JStr "Secret tuple must have exactly two entries")).
Proof.
  apply (parse_secret_shapes "u" "p" "u" "p" "extra" ["u"; "p"; "q"]).
  - reflexivity.
  - simpl. lia.
Defined.

(** ** Construction *)

Lemma init_well_formed
    (dh : gmap string string) (lg : option Logger) (dom sch : string)
    (prt : option Z) (tmo : Z) (sec : option secret_t) (self : Client) :
  __init__ dh lg dom sch prt tmo sec = Ok self → well_formed self.
Proof.
  unfold __init__, well_formed. intros H.
  destruct sec as [ [ entries | s ] | ]; simpl in H.
  - destruct (Nat.eqb (length entries) 2) eqn:E; simpl in H;
      [ | discriminate H ].
    inversion H; subst; simpl. apply Nat.eqb_eq. exact E.
  - inversion H; subst; simpl.
    destruct (split colon (Some 1%nat) s) as [ | x [ | y [ | z t ] ] ] eqn:E;
      simpl; try reflexivity.
    + destruct s; simpl in E; [ discriminate E | ].
      destruct (Ascii.eqb a colon); [ discriminate E | ].
      destruct (split colon (Some 1%nat) s); discriminate E.
    + exfalso. clear H.
      assert (Hb : ∀ s, (length (split colon (Some 1%nat) s) ≤ 2)%nat).
      { clear. induction s as [ | a r IH ]; simpl; [ lia | ].
        destruct (Ascii.eqb a colon); simpl.
        - rewrite split_exhausted. simpl. lia.
        - destruct (split colon (Some 1%nat) r); simpl in *; lia. }
      specialize (Hb s). rewrite E in Hb. simpl in Hb. lia.
  - inversion H; subst; simpl. exact I.
Qed.

(** C10: without a port the constructor picks 443 exactly for the scheme
    ["https"] and 80 for any other scheme; a given port is kept. *)
Theorem init_port
    (dh : gmap string string) (lg : option Logger) (dom sch : string)
    (prt : option Z) (tmo : Z) (sec : option secret_t) (self : Client) :
  __init__ dh lg dom sch prt tmo sec = Ok self →
  (prt = None →
     (port self = 443 ↔ sch = "https")
     ∧ (sch ≠ "https" → port self = 80))
  ∧ (∀ p, prt = Some p → port self = p).
Proof.
  intros H.
  assert (Hp : port self = default_port sch prt).
  { unfold __init__ in H.
    destruct sec as [ sec | ]; [ destruct (_parse_secret sec) | ];
      simpl in H; inversion H; reflexivity. }
  rewrite Hp. split.
  - intros ->. simpl. destruct (String.eqb sch "https") eqn:E.
    + apply String.eqb_eq in E. split; [ tauto | congruence ].
    + apply String.eqb_neq in E. split; [ split | ]; intros; try lia.
      contradiction.
  - intros p ->. reflexivity.
Qed.

Lemma init_port_witness :
  (@None Z = None →
     (port Sample.self = 443 ↔ "https" = "https")
     ∧ ("https" ≠ "https" → port Sample.self = 80))
  ∧ (∀ p, None = Some p → port Sample.self = p).
Proof.
  apply (init_port ∅ (Some (getLogger "app")) "rest.faunadb.com" "https"
           None 60 (Some (SecretStr "u:p"))).
  reflexivity.
Defined.

(** ** Logging does not change the traffic *)

Create HintDb quiet.

Section Equivalence.
Context {NetState ClockState Time : Type}.
Variable send : PreparedRequest → NetState → result Response * NetState.
Variable time : ClockState → Time * ClockState.
Variable elapsed_ms : Time → Time → Z.
Variable to_json : bool → json → string.
Variable parse_json : string → result json.
Variable str : json → string.
Variable iteritems : gmap string json → list (string * json).

Local Abbreviation World := (@World NetState ClockState).
Local Abbreviation M := (@M NetState ClockState).

Lemma same_traffic_refl (w : World) : same_traffic w w.
Proof. split; reflexivity. Qed.

Lemma same_traffic_trans (w1 w2 w3 : World) :
  same_traffic w1 w2 → same_traffic w2 w3 → same_traffic w1 w3.
Proof. intros [H1 H2] [H3 H4]. split; congruence. Qed.

Lemma sim_bind {A B} (c1 c2 : M A) (k1 k2 : A → M B) :
  sim c1 c2 → (∀ a, sim (k1 a) (k2 a)) → sim (bind c1 k1) (bind c2 k2).
Proof.
  intros Hc Hk w1 w2 Hw. unfold bind.
  destruct (Hc w1 w2 Hw) as [Hr Ht].
  destruct (c1 w1) as [r1 w1'], (c2 w2) as [r2 w2']. simpl in Hr, Ht.
  subst r2. destruct r1 as [ a | e ].
  - apply Hk. exact Ht.
  - split; [ reflexivity | exact Ht ].
Qed.

Lemma sim_quiet_l {A B} (c : M A) (k : A → M B) (c2 : M B) :
  quiet c → (∀ a, sim (k a) c2) → sim (bind c k) c2.
Proof.
  intros Hq Hk w1 w2 Hw. unfold bind.
  destruct (Hq w1) as [[a Ha] Ht].
  destruct (c w1) as [r w1']. simpl in Ha, Ht. subst r.
  apply Hk. eapply same_traffic_trans; eassumption.
Qed.

Lemma quiet_ret {A} (a : A) : quiet (ret a : M A).
Proof.
  intros w. split; [ exists a; reflexivity | apply same_traffic_refl ].
Qed.

Lemma quiet_debug (lg : Logger) (line : string) :
  quiet (debug lg line : M unit).
Proof.
  intros w. split; [ exists tt; reflexivity | split; reflexivity ].
Qed.

Lemma quiet_now : quiet (now time : M Time).
Proof.
  intros w. unfold now. destruct (time (clock w)) as [t c].
  split; [ exists t; reflexivity | split; reflexivity ].
Qed.

Lemma quiet_bind {A B} (c : M A) (k : A → M B) :
  quiet c → (∀ a, quiet (k a)) → quiet (bind c k).
Proof.
  intros Hc Hk w. unfold bind.
  destruct (Hc w) as [[a Ha] Ht].
  destruct (c w) as [r w']. simpl in Ha, Ht. subst r.
  destruct (Hk a w') as [Hr Ht'].
  split; [ exact Hr | eapply same_traffic_trans; eassumption ].
Qed.

Lemma quiet_log (environ : gmap string string) (self : Client)
    (indented : bool) (logged : string) :
  quiet (_log environ self indented logged : M unit).
Proof.
  unfold _log. apply quiet_bind.
  - destruct (_debug_logger environ); [ apply quiet_debug | apply quiet_ret ].
  - intros _.
    destruct (logger self); [ apply quiet_debug | apply quiet_ret ].
Qed.

Lemma sim_session_send (p : PreparedRequest) :
  sim (session_send send p : M Response) (session_send send p).
Proof.
  intros w1 w2 [Hn Hs]. unfold session_send. rewrite Hn, Hs.
  destruct (send p (net w2)) as [r n]. simpl.
  split; [ reflexivity | split; reflexivity ].
Qed.

Lemma sim_lift {A} (r : result A) : sim (lift r : M A) (lift r).
Proof. intros w1 w2 Hw. split; [ reflexivity | exact Hw ]. Qed.

Lemma sim_round_trip (p : PreparedRequest) :
  sim (round_trip send parse_json p : M json)
      (round_trip send parse_json p).
Proof.
  unfold round_trip.
  apply sim_bind; [ apply sim_session_send | intros response ].
  apply sim_bind; [ apply sim_lift | intros d ].
  apply sim_lift.
Qed.

#[local] Hint Resolve quiet_log quiet_now quiet_ret : quiet.

(** Whatever the logging configuration, [_execute] is one round trip
    for the request [wire] builds. *)
Lemma execute_round_trip (environ : gmap string string) (self : Client)
    (action : string) (path : path_t) (data : json)
    (query : option (gmap string json)) :
  well_formed self →
  sim (_execute send time elapsed_ms to_json parse_json str iteritems
         environ self action path data query)
      (round_trip send parse_json
         (wire to_json self action path data query)).
Proof.
  intros Hwf. unfold _execute, wire.
  fold (path_string path).
  destruct (bool_decide _).
  - apply sim_quiet_l; [ auto with quiet | intros _ ].
    apply sim_quiet_l.
    { unfold well_formed in Hwf.
      destruct (auth (session self)) as [ t | ]; [ | auto with quiet ].
      destruct t as [ | u [ | p [ | x t ] ] ]; try discriminate Hwf.
      apply quiet_bind; [ | intros line; auto with quiet ].
      intros w. split; [ eexists; reflexivity | apply same_traffic_refl ]. }
    intros _.
    apply sim_quiet_l;
      [ destruct (truthy data); auto with quiet | intros _ ].
    apply sim_quiet_l; [ auto with quiet | intros t0 ].
    unfold _execute_without_logging, round_trip.
    apply sim_bind; [ apply sim_session_send | intros response ].
    apply sim_quiet_l; [ auto with quiet | intros t1 ].
    apply sim_bind; [ apply sim_lift | intros d ].
    do 3 (apply sim_quiet_l; [ auto with quiet | intros _ ]).
    apply sim_lift.
  - apply sim_round_trip.
Qed.

(** The round trip, spelled out on the world. *)
Lemma round_trip_world (p : PreparedRequest) (w : World) :
  (round_trip send parse_json p w).1 = answer send parse_json p (net w)
  ∧ net (round_trip send parse_json p w).2 = (send p (net w)).2
  ∧ sent (round_trip send parse_json p w).2 = (sent w ++ [p])%list.
Proof.
  unfold round_trip, answer, bind, session_send, lift.
  destruct (send p (net w)) as [ [ response | e ] n ]; simpl.
  - destruct (parse_json (text response)); simpl; auto.
  - auto.
Qed.

Lemma execute_world (environ : gmap string string) (self : Client)
    (action : string) (path : path_t) (data : json)
    (query : option (gmap string json)) (w : World) :
  well_formed self →
  let p := wire to_json self action path data query in
  let out := _execute send time elapsed_ms to_json parse_json str iteritems
               environ self action path data query w in
  out.1 = answer send parse_json p (net w)
  ∧ net out.2 = (send p (net w)).2
  ∧ sent out.2 = (sent w ++ [p])%list.
Proof.
  intros Hwf p out.
  destruct (execute_round_trip environ self action path data query Hwf
              w w (same_traffic_refl w)) as [Hr [Hn Hs]].
  destruct (round_trip_world p w) as [Ha [Hb Hc]].
  subst p out. rewrite Hr, Hn, Hs. auto.
Qed.
End Equivalence.

(** ** What goes on the wire *)

Lemma is_none_false (v : json) : is_none v = false ↔ v ≠ JNull.
Proof. destruct v; simpl; split; congruence. Qed.

Lemma drop_none_lookup (q : gmap string json) (k : string) (v : json) :
  drop_none q !! k = Some v ↔ q !! k = Some v ∧ v ≠ JNull.
Proof.
  unfold drop_none. rewrite map_lookup_filter_Some. simpl.
  rewrite is_none_false. reflexivity.
Qed.

Lemma drop_none_absent (q : gmap string json) (k : string) :
  q !! k = None ∨ q !! k = Some JNull → drop_none q !! k = None.
Proof.
  intros H. destruct (drop_none q !! k) as [ v | ] eqn:E; [ | reflexivity ].
  apply drop_none_lookup in E. destruct E as [E Hv].
  destruct H as [H | H]; rewrite H in E; [ discriminate E | ].
  inversion E. congruence.
Qed.

Lemma init_shares_session
    (dh : gmap string string) (lg1 lg2 : option Logger) (dom sch : string)
    (prt : option Z) (tmo : Z) (sec : option secret_t)
    (self1 self2 : Client) :
  __init__ dh lg1 dom sch prt tmo sec = Ok self1 →
  __init__ dh lg2 dom sch prt tmo sec = Ok self2 →
  session self1 = session self2 ∧ base_url self1 = base_url self2.
Proof.
  unfold __init__. intros H1 H2.
  destruct sec as [ sec | ]; [ destruct (_parse_secret sec) | ];
    simpl in H1, H2; inversion H1; inversion H2; subst; auto.
Qed.

Lemma init_base_url
    (dh : gmap string string) (lg : option Logger) (dom sch : string)
    (prt : option Z) (tmo : Z) (sec : option secret_t) (self : Client) :
  __init__ dh lg dom sch prt tmo sec = Ok self →
  scheme self = sch ∧ domain self = dom ∧ port self = default_port sch prt
  ∧ base_url self
    = scheme self ++ "://" ++ domain self ++ ":" ++ str_of_int (port self).
Proof.
  unfold __init__. intros H.
  destruct sec as [ sec | ]; [ destruct (_parse_secret sec) | ];
    simpl in H; inversion H; subst; auto.
Qed.

Section Traffic.
Context {NetState ClockState Time : Type}.
Variable send : PreparedRequest → NetState → result Response * NetState.
Variable time : ClockState → Time * ClockState.
Variable elapsed_ms : Time → Time → Z.
Variable to_json : bool → json → string.
Variable parse_json : string → result json.
Variable str : json → string.
Variable iteritems : gmap string json → list (string * json).

Local Abbreviation World := (@World NetState ClockState).
Local Abbreviation execute :=
  (_execute send time elapsed_ms to_json parse_json str iteritems).

(** C6: of a query mapping, the keys bound to [None] are left out of
    the transmitted parameters and every other key goes out with its
    value; no mapping at all stays no mapping. *)
Theorem execute_drops_none_params
    (dh : gmap string string) (lg : option Logger) (dom sch : string)
    (prt : option Z) (tmo : Z) (sec : option secret_t) (self : Client)
    (environ : gmap string string) (action : string) (path : path_t)
    (data : json) (query : option (gmap string json)) (w : World) :
  __init__ dh lg dom sch prt tmo sec = Ok self →
  ∃ p, sent (execute environ self action path data query w).2
       = (sent w ++ [p])%list
    ∧ match query with
      | None => params (request p) = None
      | Some q =>
          ∃ q', params (request p) = Some q'
            ∧ (∀ k, q !! k = Some JNull → q' !! k = None)
            ∧ (∀ k v, q !! k = Some v → v ≠ JNull → q' !! k = Some v)
            ∧ (∀ k, q !! k = None → q' !! k = None)
      end.
Proof.
  intros Hinit. apply init_well_formed in Hinit.
  destruct (execute_world send time elapsed_ms to_json parse_json str iteritems
              environ self action path data query w Hinit)
    as [_ [_ Hs]].
  eexists. split; [ exact Hs | ].
  destruct query as [ q | ]; simpl; [ | reflexivity ].
  exists (drop_none q). split; [ reflexivity | ].
  split; [ | split ].
  - intros k Hk. apply drop_none_absent. right. exact Hk.
  - intros k v Hk Hv. apply drop_none_lookup. split; assumption.
  - intros k Hk. apply drop_none_absent. left. exact Hk.
Qed.

(** C7: two clients that differ only in the attached logger, under any
    two settings of the debug environment, give the same result or the
    same raised error for the same call in the same world, and cause the
    same traffic. *)
Theorem execute_logging_irrelevant
    (dh : gmap string string) (lg1 lg2 : option Logger)
    (dom sch : string) (prt : option Z) (tmo : Z)
    (sec : option secret_t) (self1 self2 : Client)
    (environ1 environ2 : gmap string string) (action : string)
    (path : path_t) (data : json) (query : option (gmap string json))
    (w : World) :
  __init__ dh lg1 dom sch prt tmo sec = Ok self1 →
  __init__ dh lg2 dom sch prt tmo sec = Ok self2 →
  let out1 := execute environ1 self1 action path data query w in
  let out2 := execute environ2 self2 action path data query w in
  out1.1 = out2.1 ∧ net out1.2 = net out2.2 ∧ sent out1.2 = sent out2.2.
Proof.
  intros H1 H2 out1 out2.
  destruct (init_shares_session _ _ _ _ _ _ _ _ _ _ H1 H2) as [Hs Hb].
  apply init_well_formed in H1, H2.
  destruct (execute_world send time elapsed_ms to_json parse_json str iteritems
              environ1 self1 action path data query w H1)
    as [Ha1 [Hb1 Hc1]].
  destruct (execute_world send time elapsed_ms to_json parse_json str iteritems
              environ2 self2 action path data query w H2)
    as [Ha2 [Hb2 Hc2]].
  subst out1 out2. rewrite Ha1, Ha2, Hb1, Hb2, Hc1, Hc2.
  unfold wire. rewrite Hs, Hb. auto.
Qed.

(** C8: [ping] sends one GET for the path [ping] whose parameters are
    the ones of [scope] and [timeout] that are not [None]. *)
Theorem ping_request
    (dh : gmap string string) (lg : option Logger) (dom sch : string)
    (prt : option Z) (tmo : Z) (sec : option secret_t) (self : Client)
    (environ : gmap string string) (scope timeout : json) (w : World) :
  __init__ dh lg dom sch prt tmo sec = Ok self →
  ∃ p q,
    sent (ping send time elapsed_ms to_json parse_json str iteritems
            environ self scope timeout w).2 = (sent w ++ [p])%list
    ∧ action (request p) = "GET"
    ∧ url (request p) = base_url self ++ "/" ++ "ping"
    ∧ params (request p) = Some q
    ∧ ∀ k v, q !! k = Some v ↔
             (k = "scope" ∧ v = scope ∧ scope ≠ JNull)
             ∨ (k = "timeout" ∧ v = timeout ∧ timeout ≠ JNull).
Proof.
  intros Hinit. apply init_well_formed in Hinit.
  unfold ping, get.
  match goal with
  | |- context [ _execute _ _ _ _ _ _ _ ?e ?s ?a ?p ?d ?q w ] =>
      destruct (execute_world send time elapsed_ms to_json parse_json
                  str iteritems e s a p d q w Hinit) as [_ [_ Hs]]
  end.
  eexists. eexists. split; [ exact Hs | ].
  simpl. repeat (split; [ reflexivity | ]).
  intros k v. rewrite drop_none_lookup. split.
  - intros [Hk Hv].
    destruct (decide (k = "scope")) as [ -> | Hns ].
    + rewrite lookup_insert_eq in Hk. inversion Hk; subst. left. auto.
    + rewrite lookup_insert_ne in Hk by congruence.
      destruct (decide (k = "timeout")) as [ -> | Hnt ].
      * rewrite lookup_insert_eq in Hk. inversion Hk; subst. right. auto.
      * rewrite lookup_insert_ne in Hk by congruence.
        rewrite lookup_empty in Hk. discriminate Hk.
  - intros [ [-> [-> Hv]] | [-> [-> Hv]] ].
    + rewrite lookup_insert_eq. auto.
    + rewrite lookup_insert_ne by discriminate.
      rewrite lookup_insert_eq. auto.
Qed.

(** C9: the transmitted URL is [scheme://domain:port], one slash, and
    the path, where a [Ref] stands for its string value. *)
Theorem execute_url
    (dh : gmap string string) (lg : option Logger) (dom sch : string)
    (prt : option Z) (tmo : Z) (sec : option secret_t) (self : Client)
    (environ : gmap string string) (action : string) (path : path_t)
    (data : json) (query : option (gmap string json)) (w : World) :
  __init__ dh lg dom sch prt tmo sec = Ok self →
  ∃ p, sent (execute environ self action path data query w).2
       = (sent w ++ [p])%list
    ∧ url (request p)
      = (scheme self ++ "://" ++ domain self ++ ":"
           ++ str_of_int (port self))
        ++ "/"
        ++ match path with
           | PathRef r => value r
           | PathStr s => s
           end.
Proof.
  intros Hinit.
  destruct (init_base_url _ _ _ _ _ _ _ _ Hinit) as [_ [_ [_ Hb]]].
  apply init_well_formed in Hinit.
  destruct (execute_world send time elapsed_ms to_json parse_json str iteritems
              environ self action path data query w Hinit)
    as [_ [_ Hs]].
  eexists. split; [ exact Hs | ].
  simpl. rewrite Hb. reflexivity.
Qed.
End Traffic.

(** ** The properties at work in the sample world *)

Lemma execute_drops_none_params_witness :
  ∃ p, sent (_execute Sample.send Sample.time Sample.elapsed_ms
               Sample.to_json Sample.parse_json Sample.str Sample.iteritems
               ∅ Sample.self "GET" (PathStr "classes/frogs/123") JNull
               (Some (<["size" := JNum 2]> (<["ts" := JNull]> ∅)))
               Sample.world).2
       = (sent Sample.world ++ [p])%list
    ∧ ∃ q', params (request p) = Some q'
        ∧ (∀ k, (<["size" := JNum 2]> (<["ts" := JNull]> ∅)
                   : gmap string json) !! k = Some JNull → q' !! k = None)
        ∧ (∀ k v, (<["size" := JNum 2]> (<["ts" := JNull]> ∅)
                     : gmap string json) !! k = Some v →
                  v ≠ JNull → q' !! k = Some v)
        ∧ (∀ k, (<["size" := JNum 2]> (<["ts" := JNull]> ∅)
                   : gmap string json) !! k = None → q' !! k = None).
Proof.
  apply (execute_drops_none_params Sample.send Sample.time
           Sample.elapsed_ms Sample.to_json Sample.parse_json Sample.str Sample.iteritems
           ∅ (Some (getLogger "app")) "rest.faunadb.com" "https" None 60
           (Some (SecretStr "u:p")) Sample.self ∅ "GET"
           (PathStr "classes/frogs/123") JNull
           (Some (<["size" := JNum 2]> (<["ts" := JNull]> ∅)))
           Sample.world).
  reflexivity.
Defined.

Lemma execute_logging_irrelevant_witness :
  let silent :=
    mkClient None "rest.faunadb.com" "https" 443
      (session Sample.self) (base_url Sample.self) in
  let out1 :=
    _execute Sample.send Sample.time Sample.elapsed_ms Sample.to_json
      Sample.parse_json Sample.str Sample.iteritems (<["FAUNA_DEBUG" := "1"]> ∅)
      Sample.self "POST" (PathRef (mkRef "classes/frogs")) Sample.frog None
      Sample.world in
  let out2 :=
    _execute Sample.send Sample.time Sample.elapsed_ms Sample.to_json
      Sample.parse_json Sample.str Sample.iteritems ∅
      silent "POST" (PathRef (mkRef "classes/frogs")) Sample.frog None
      Sample.world in
  out1.1 = out2.1 ∧ net out1.2 = net out2.2 ∧ sent out1.2 = sent out2.2.
Proof.
  intros silent.
  apply (execute_logging_irrelevant Sample.send Sample.time
           Sample.elapsed_ms Sample.to_json Sample.parse_json Sample.str Sample.iteritems
           ∅ (Some (getLogger "app")) None "rest.faunadb.com" "https" None
           60 (Some (SecretTuple ["u"; "p"])) Sample.self silent
           (<["FAUNA_DEBUG" := "1"]> ∅) ∅ "POST"
           (PathRef (mkRef "classes/frogs")) Sample.frog None Sample.world).
  - reflexivity.
  - reflexivity.
Defined.

Lemma ping_request_witness :
  ∃ p q,
    sent (ping Sample.send Sample.time Sample.elapsed_ms Sample.to_json
            Sample.parse_json Sample.str Sample.iteritems ∅ Sample.self
            (JStr "node") JNull Sample.world).2
    = (sent Sample.world ++ [p])%list
    ∧ action (request p) = "GET"
    ∧ url (request p) = base_url Sample.self ++ "/" ++ "ping"
    ∧ params (request p) = Some q
    ∧ ∀ k v, q !! k = Some v ↔
             (k = "scope" ∧ v = JStr "node" ∧ JStr "node" ≠ JNull)
             ∨ (k = "timeout" ∧ v = JNull ∧ JNull ≠ JNull).
Proof.
  apply (ping_request Sample.send Sample.time Sample.elapsed_ms
           Sample.to_json Sample.parse_json Sample.str Sample.iteritems
           ∅ (Some (getLogger "app")) "rest.faunadb.com" "https" None 60
           (Some (SecretStr "u:p")) Sample.self ∅ (JStr "node") JNull
           Sample.world).
  reflexivity.
Defined.

Lemma execute_url_witness :
  ∃ p, sent (_execute Sample.send Sample.time Sample.elapsed_ms
               Sample.to_json Sample.parse_json Sample.str Sample.iteritems
               ∅ Sample.self "GET"
               (PathRef (mkRef "classes/frogs/123")) JNull None
               Sample.world).2
       = (sent Sample.world ++ [p])%list
    ∧ url (request p)
      = (scheme Sample.self ++ "://" ++ domain Sample.self ++ ":"
           ++ str_of_int (port Sample.self))
        ++ "/" ++ "classes/frogs/123".
Proof.
  apply (execute_url Sample.send Sample.time Sample.elapsed_ms
           Sample.to_json Sample.parse_json Sample.str Sample.iteritems
           ∅ (Some (getLogger "app")) "rest.faunadb.com" "https" None 60
           (Some (SecretStr "u:p")) Sample.self ∅ "GET"
           (PathRef (mkRef "classes/frogs/123")) JNull None Sample.world).
  reflexivity.
Defined.

(** The sample run end to end: the frog comes back, the URL is the
    expected one, and the log has its lines. *)
Example sample_get_frog :
  let out :=
    _execute Sample.send Sample.time Sample.elapsed_ms Sample.to_json
      Sample.parse_json Sample.str Sample.iteritems ∅ Sample.self "GET"
      (PathStr "classes/frogs/123") JNull None Sample.world in
  out.1 = Ok Sample.frog
  ∧ (url ∘ request) <$> sent out.2
    = ["https://rest.faunadb.com:443/classes/frogs/123"]
  ∧ length (log_lines out.2) = 5%nat.
Proof. vm_compute. auto. Qed.

(** ** Small checks of the string helpers *)

Example split_newline :
  split newline None ("a" ++ newline_str ++ "b" ++ newline_str)
  = ["a"; "b"; ""].
Proof. reflexivity. Qed.

Example indent_two_lines :
  indent ("a" ++ newline_str ++ "b")
  = "  a" ++ newline_str ++ "  b".
Proof. reflexivity. Qed.

Example split_leading_colon :
  split colon (Some 1%nat) ":p:q" = [""; "p:q"].
Proof. reflexivity. Qed.

Example str_of_int_negative : str_of_int (-80) = "-80".
Proof. reflexivity. Qed.

Example query_string_sample :
  _query_string_for_logging Sample.str Sample.iteritems
    (Some (<["size" := JNum 2]> ∅)) = "?size=2"
  ∧ _query_string_for_logging Sample.str Sample.iteritems (Some ∅) = ""
  ∧ _query_string_for_logging Sample.str Sample.iteritems None = "".
Proof. vm_compute. auto. Qed.

Example debug_logger_from_environ :
  _debug_logger (<["FAUNA_DEBUG" := "1"]> ∅)
  = Some (getLogger "faunadb.client")
  ∧ _debug_logger (<["FAUNA_DEBUG" := ""]> ∅) = None
  ∧ _debug_logger ∅ = None.
Proof. vm_compute. auto. Qed.

(** * Further properties of the client *)

(** ** Status dispatch, read backwards *)

(** X1: [_handle_response] returns a value only for a 2xx status and a
    mapping body, and the value is the [resource] entry of that mapping. *)
Theorem handle_response_ok_inv
    (response : Response) (body v : json) :
  _handle_response response body = Ok v →
  is_success (status_code response)
  ∧ ∃ m, body = JObj m ∧ m !! "resource" = Some v.
Proof.
  unfold _handle_response. intros H.
  destruct ((200 <=? status_code response)%Z
            && (status_code response <=? 299)%Z) eqn:E.
  - apply andb_prop in E. destruct E as [E1 E2].
    apply Z.leb_le in E1, E2. split; [ split; assumption | ].
    destruct body as [ | b | n | s | l | m ]; simpl in H;
      try discriminate H.
    exists m. split; [ reflexivity | ].
    destruct (m !! "resource") as [ x | ]; [ | discriminate H ].
    inversion H. reflexivity.
  - repeat match type of H with
           | (if ?c then _ else _) = _ => destruct c; try discriminate H
           end.
Qed.

Lemma handle_response_ok_inv_witness :
  is_success (status_code (mkResponse 201 ∅ "{}"))
  ∧ ∃ m, JObj (<["resource" := JStr "made"]> ∅) = JObj m
         ∧ m !! "resource" = Some (JStr "made").
Proof.
  apply (handle_response_ok_inv (mkResponse 201 ∅ "{}")
           (JObj (<["resource" := JStr "made"]> ∅)) (JStr "made")).
  reflexivity.
Defined.

(** X2: outside 2xx the body is never inspected: whatever it is, the call
    raises an error of the taxonomy holding exactly that body. *)
Theorem handle_response_failure_taxonomy
    (response : Response) (body : json) :
  ¬ is_success (status_code response) →
  ∃ cls, _handle_response response body = Raise (Exn cls body)
         ∧ is_fauna_error cls = true.
Proof.
  intros Hs. unfold _handle_response.
  rewrite (not_success_test _ Hs).
  repeat match goal with
         | |- context [ if ?c then _ else _ ] => destruct c
         end;
    eexists; split; reflexivity.
Qed.

Lemma handle_response_failure_taxonomy_witness :
  ∃ cls, _handle_response (mkResponse 302 ∅ "moved") (JList [])
         = Raise (Exn cls (JList []))
         ∧ is_fauna_error cls = true.
Proof.
  apply handle_response_failure_taxonomy.
  unfold is_success. simpl. lia.
Defined.

(** ** Secrets, in general *)

Lemma split_once_shape (s : string) :
  ∃ u rest,
    split colon (Some 1%nat) s = u :: rest
    ∧ contains colon u = false
    ∧ (if contains colon s
       then ∃ p, rest = [p] ∧ s = u ++ String colon p
       else rest = [] ∧ u = s).
Proof.
  induction s as [ | a r IH ]; simpl.
  - exists "", []. auto.
  - destruct (Ascii.eqb a colon) eqn:E; simpl.
    + rewrite split_exhausted. exists "", [r]. split; [ reflexivity | ].
      split; [ reflexivity | ]. exists r. split; [ reflexivity | ].
      apply Ascii.eqb_eq in E. subst a. reflexivity.
    + destruct IH as [u [rest [Hsp [Hu Hs]]]]. rewrite Hsp.
      exists (String a u), rest. split; [ reflexivity | ].
      split; [ simpl; rewrite E; exact Hu | ].
      destruct (contains colon r).
      * destruct Hs as [p [Hr Hs]]. exists p. split; [ exact Hr | ].
        rewrite Hs at 1. reflexivity.
      * destruct Hs as [Hr Hs]. split; [ exact Hr | ]. rewrite Hs.
        reflexivity.
Qed.

(** X3: every string is accepted as a secret and gives exactly two
    entries; the first has no colon; with a colon in the string the two
    entries are what stands before and after its first colon, without one
    they are the string and the empty string. *)
Theorem parse_secret_string (s : string) :
  ∃ u p,
    _parse_secret (SecretStr s) = Ok [u; p]
    ∧ contains colon u = false
    ∧ (if contains colon s then s = u ++ ":" ++ p else u = s ∧ p = "").
Proof.
  unfold _parse_secret.
  destruct (split_once_shape s) as [u [rest [Hsp [Hu Hs]]]].
  rewrite Hsp. destruct (contains colon s).
  - destruct Hs as [p [-> Hs]]. exists u, p. simpl. auto.
  - destruct Hs as [-> ->]. exists s, "". simpl. auto.
Qed.

(** X4: joining the parsed entries with a colon gives the string back when
    it had a colon, and the string followed by a colon when it had none. *)
Theorem parse_secret_join (s : string) (pair : list string) :
  _parse_secret (SecretStr s) = Ok pair →
  join ":" pair = if contains colon s then s else s ++ ":".
Proof.
  intros H.
  destruct (parse_secret_string s) as [u [p [Hp [_ Hs]]]].
  rewrite Hp in H. inversion H. subst pair. clear H.
  unfold join. simpl.
  destruct (contains colon s).
  - rewrite Hs. reflexivity.
  - destruct Hs as [-> ->]. reflexivity.
Qed.

Lemma parse_secret_join_witness :
  join ":" ["key"; "a:b"]
  = if contains colon "key:a:b" then "key:a:b" else "key:a:b" ++ ":".
Proof.
  apply (parse_secret_join "key:a:b" ["key"; "a:b"]). reflexivity.
Defined.

(** X5: [_parse_secret] raises exactly for a tuple whose length is not
    two, and whatever it returns has two entries. *)
Theorem parse_secret_raises_iff (secret : secret_t) :
  ((∃ e, _parse_secret secret = Raise e)
   ↔ ∃ entries, secret = SecretTuple entries ∧ length entries ≠ 2%nat)
  ∧ (∀ pair, _parse_secret secret = Ok pair → length pair = 2%nat).
Proof.
  destruct secret as [ entries | s ].
  - unfold _parse_secret.
    destruct (Nat.eqb (length entries) 2) eqn:E; simpl.
    + apply Nat.eqb_eq in E. split.
      * split.
        -- intros [e He]. discriminate He.
        -- intros [l [Hl Hn]]. inversion Hl. subst l. contradiction.
      * intros pair Hp. inversion Hp. subst pair. exact E.
    + apply Nat.eqb_neq in E. split.
      * split.
        -- intros _. exists entries. auto.
        -- intros _. eexists. reflexivity.
      * intros pair Hp. discriminate Hp.
  - destruct (parse_secret_string s) as [u [p [Hp _]]]. split.
    + split.
      * intros [e He]. rewrite Hp in He. discriminate He.
      * intros [l [Hl _]]. discriminate Hl.
    + intros pair Hpair. rewrite Hp in Hpair. inversion Hpair.
      reflexivity.
Qed.

Lemma parse_secret_raises_iff_witness :
  ∃ e, _parse_secret (SecretTuple ["only"]) = Raise e.
Proof.
  apply (proj1 (parse_secret_raises_iff (SecretTuple ["only"]))).
  exists ["only"]. split; [ reflexivity | simpl; lia ].
Defined.

(** ** Construction, in general *)

(** X6: the constructor fails only on a secret tuple whose length is not
    two, with [FaunaError]; in every other case it returns a client that
    holds the given logger, domain and scheme. *)
Theorem init_outcome
    (dh : gmap string string) (lg : option Logger) (dom sch : string)
    (prt : option Z) (tmo : Z) (sec : option secret_t) :
  (∃ self, __init__ dh lg dom sch prt tmo sec = Ok self
           ∧ logger self = lg ∧ domain self = dom ∧ scheme self = sch)
  ∨ (∃ entries, sec = Some (SecretTuple entries)
                ∧ length entries ≠ 2%nat
                ∧ __init__ dh lg dom sch prt tmo sec
                  = Raise (Exn FaunaError
                      (JStr "Secret tuple must have exactly two entries"))).
Proof.
  unfold __init__.
  destruct sec as [ [ entries | s ] | ].
  - unfold _parse_secret.
    destruct (Nat.eqb (length entries) 2) eqn:E; simpl.
    + left. eexists. repeat split.
    + right. exists entries. apply Nat.eqb_neq in E. auto.
  - destruct (parse_secret_string s) as [u [p [Hp _]]]. rewrite Hp.
    left. eexists. repeat split.
  - left. eexists. repeat split.
Qed.

(** X7: a constructed client's session has the two fixed headers, whatever
    the session's defaults said for them, keeps every other default
    header, has the given timeout, and has credentials exactly when a
    secret was given: the parsed pair. *)
Theorem init_session
    (dh : gmap string string) (lg : option Logger) (dom sch : string)
    (prt : option Z) (tmo : Z) (sec : option secret_t) (self : Client) :
  __init__ dh lg dom sch prt tmo sec = Ok self →
  session_headers (session self) !! "Accept-Encoding" = Some "gzip"
  ∧ session_headers (session self) !! "Content-Type"
    = Some "application/json;charset=utf-8"
  ∧ (∀ k, k ≠ "Accept-Encoding" → k ≠ "Content-Type" →
          session_headers (session self) !! k = dh !! k)
  ∧ session_timeout (session self) = Some tmo
  ∧ match sec with
    | None => auth (session self) = None
    | Some s => ∃ u p, _parse_secret s = Ok [u; p]
                       ∧ auth (session self) = Some [u; p]
    end.
Proof.
  intros H.
  assert (Hs : session_headers (session self)
               = <["Content-Type" := "application/json;charset=utf-8"]>
                   (<["Accept-Encoding" := "gzip"]> dh)
               ∧ session_timeout (session self) = Some tmo).
  { unfold __init__ in H.
    destruct sec as [ s | ]; [ destruct (_parse_secret s) | ];
      simpl in H; inversion H; subst; auto. }
  destruct Hs as [Hh Ht]. rewrite Hh.
  split; [ rewrite lookup_insert_ne by discriminate;
           apply lookup_insert_eq | ].
  split; [ apply lookup_insert_eq | ].
  split.
  { intros k H1 H2. rewrite lookup_insert_ne by congruence.
    rewrite lookup_insert_ne by congruence. reflexivity. }
  split; [ exact Ht | ].
  pose proof (init_well_formed _ _ _ _ _ _ _ _ H) as Hwf.
  unfold well_formed in Hwf. unfold __init__ in H.
  destruct sec as [ s | ].
  - destruct (_parse_secret s) as [ pair | e ] eqn:E; simpl in H;
      inversion H; subst; simpl in *.
    destruct pair as [ | u [ | p [ | x t ] ] ]; try discriminate Hwf.
    exists u, p. auto.
  - simpl in H. inversion H. reflexivity.
Qed.

Lemma init_session_witness :
  session_headers (session Sample.self) !! "Accept-Encoding" = Some "gzip"
  ∧ session_headers (session Sample.self) !! "Content-Type"
    = Some "application/json;charset=utf-8"
  ∧ (∀ k, k ≠ "Accept-Encoding" → k ≠ "Content-Type" →
          session_headers (session Sample.self) !! k
          = (∅ : gmap string string) !! k)
  ∧ session_timeout (session Sample.self) = Some 60
  ∧ ∃ u p, _parse_secret (SecretStr "u:p") = Ok [u; p]
           ∧ auth (session Sample.self) = Some [u; p].
Proof.
  apply (init_session ∅ (Some (getLogger "app")) "rest.faunadb.com"
           "https" None 60 (Some (SecretStr "u:p")) Sample.self).
  reflexivity.
Defined.

(** ** The executor, in general *)

Lemma format_credentials_bad (t : list string) :
  length t ≠ 2%nat → format_credentials t = Raise (Exn TypeError JNull).
Proof.
  destruct t as [ | u [ | p [ | x t ] ] ]; simpl; intros H;
    try reflexivity.
  contradiction.
Qed.

Section Executor.
Context {NetState ClockState Time : Type}.
Variable send : PreparedRequest → NetState → result Response * NetState.
Variable time : ClockState → Time * ClockState.
Variable elapsed_ms : Time → Time → Z.
Variable to_json : bool → json → string.
Variable parse_json : string → result json.
Variable str : json → string.
Variable iteritems : gmap string json → list (string * json).

Local Abbreviation World := (@World NetState ClockState).
Local Abbreviation M := (@M NetState ClockState).
Local Abbreviation execute :=
  (_execute send time elapsed_ms to_json parse_json str iteritems).

(** *** Where log lines go *)

Lemma logs_to_ret {A} (ok : Logger → Prop) (a : A) :
  logs_to ok (ret a : M A).
Proof.
  intros w. exists []. split; [ symmetry; apply app_nil_r | constructor ].
Qed.

Lemma logs_to_lift {A} (ok : Logger → Prop) (r : result A) :
  logs_to ok (lift r : M A).
Proof.
  intros w. exists []. split; [ symmetry; apply app_nil_r | constructor ].
Qed.

Lemma logs_to_now (ok : Logger → Prop) : logs_to ok (now time : M Time).
Proof.
  intros w. unfold now. destruct (time (clock w)) as [t c].
  exists []. split; [ symmetry; apply app_nil_r | constructor ].
Qed.

Lemma logs_to_send (ok : Logger → Prop) (p : PreparedRequest) :
  logs_to ok (session_send send p : M Response).
Proof.
  intros w. unfold session_send. destruct (send p (net w)) as [r n].
  exists []. split; [ symmetry; apply app_nil_r | constructor ].
Qed.

Lemma logs_to_debug (ok : Logger → Prop) (lg : Logger) (line : string) :
  ok lg → logs_to ok (debug lg line : M unit).
Proof.
  intros Hok w. exists [(lg, line)]. split; [ reflexivity | ].
  constructor; [ exact Hok | constructor ].
Qed.

Lemma logs_to_bind {A B} (ok : Logger → Prop) (c : M A) (k : A → M B) :
  logs_to ok c → (∀ a, logs_to ok (k a)) → logs_to ok (bind c k).
Proof.
  intros Hc Hk w. unfold bind.
  destruct (Hc w) as [x1 [H1 F1]].
  destruct (c w) as [ [ a | e ] w' ]; simpl in H1.
  - destruct (Hk a w') as [x2 [H2 F2]].
    exists (x1 ++ x2)%list. split.
    + rewrite H2, H1. symmetry. apply app_assoc.
    + apply Forall_app. split; assumption.
  - exists x1. split; assumption.
Qed.

Lemma logs_to_log (environ : gmap string string) (self : Client)
    (indented : bool) (logged : string) :
  logs_to (λ lg, logger self = Some lg ∨ _debug_logger environ = Some lg)
    (_log environ self indented logged : M unit).
Proof.
  unfold _log. apply logs_to_bind.
  - destruct (_debug_logger environ) as [ lg | ];
      [ apply logs_to_debug; right; reflexivity | apply logs_to_ret ].
  - intros _. destruct (logger self) as [ lg | ];
      [ apply logs_to_debug; left; reflexivity | apply logs_to_ret ].
Qed.

Ltac logs_step :=
  first [ apply logs_to_log | apply logs_to_now | apply logs_to_send
        | apply logs_to_lift | apply logs_to_ret
        | apply logs_to_bind; [ | intros ? ] ].

(** X8: whatever the call and its outcome, [_execute] only appends to the
    log, and every line it appends goes to the client's own logger or to
    the debug logger of the environment. *)
Theorem execute_logs_to (environ : gmap string string) (self : Client)
    (action : string) (path : path_t) (data : json)
    (query : option (gmap string json)) :
  logs_to (λ lg, logger self = Some lg ∨ _debug_logger environ = Some lg)
    (execute environ self action path data query).
Proof.
  unfold _execute, _execute_without_logging.
  destruct (bool_decide _).
  - logs_step; [ logs_step | ].
    logs_step.
    { destruct (auth (session self)); repeat logs_step. }
    logs_step; [ destruct (truthy data); logs_step | ].
    repeat logs_step.
  - repeat logs_step.
Qed.

(** X9: a client with well-formed credentials and without logger, in an
    environment without debug logger, logs nothing and does not read the
    clock while it sends its one request. *)
Theorem execute_silent (environ : gmap string string) (self : Client)
    (action : string) (path : path_t) (data : json)
    (query : option (gmap string json)) (w : World) :
  well_formed self →
  logger self = None →
  _debug_logger environ = None →
  let out := execute environ self action path data query w in
  log_lines out.2 = log_lines w
  ∧ clock out.2 = clock w
  ∧ sent out.2
    = (sent w ++ [wire to_json self action path data query])%list.
Proof.
  intros _ Hl Hd out. subst out.
  unfold _execute, _execute_without_logging, wire.
  rewrite Hl, Hd.
  rewrite bool_decide_eq_false_2 by (intros [ H | H ]; congruence).
  fold (path_string path).
  unfold bind, session_send, lift.
  destruct (send _ (net w)) as [ [ response | e ] n ]; simpl; auto.
  destruct (parse_json (text response)); simpl; auto.
Qed.

(** X10: with logging on and credentials that are no pair, the call
    raises [TypeError] while formatting the credentials line: nothing is
    sent and the server is not touched. *)
Theorem execute_tampered_credentials
    (environ : gmap string string) (self : Client)
    (action : string) (path : path_t) (data : json)
    (query : option (gmap string json)) (w : World) (t : list string) :
  logger self ≠ None ∨ _debug_logger environ ≠ None →
  auth (session self) = Some t →
  length t ≠ 2%nat →
  let out := execute environ self action path data query w in
  out.1 = Raise (Exn TypeError JNull)
  ∧ sent out.2 = sent w
  ∧ net out.2 = net w.
Proof.
  intros Hlog Hauth Hlen out.
  assert (H : ∃ w', out = (Raise (Exn TypeError JNull), w')
                    ∧ sent w' = sent w ∧ net w' = net w).
  { subst out. unfold _execute.
    rewrite bool_decide_eq_true_2 by exact Hlog.
    rewrite Hauth, (format_credentials_bad t Hlen).
    unfold bind at 1.
    match goal with
    | |- context [ _log environ self false ?l w ] =>
        destruct (quiet_log environ self false l w) as [[a Ha] [Hn Hs]];
        destruct (_log environ self false l w) as [r w']
    end.
    simpl in Ha, Hn, Hs. subst r.
    unfold bind, lift. simpl. exists w'. auto. }
  destruct H as [w' [-> [Hs Hn]]]. simpl. auto.
Qed.
End Executor.

(** ** What a call gives back *)

Section Outcome.
Context {NetState ClockState Time : Type}.
Variable send : PreparedRequest → NetState → result Response * NetState.
Variable time : ClockState → Time * ClockState.
Variable elapsed_ms : Time → Time → Z.
Variable to_json : bool → json → string.
Variable parse_json : string → result json.
Variable str : json → string.
Variable iteritems : gmap string json → list (string * json).

Local Abbreviation World := (@World NetState ClockState).
Local Abbreviation execute :=
  (_execute send time elapsed_ms to_json parse_json str iteritems).
Local Abbreviation world_of :=
  (execute_world send time elapsed_ms to_json parse_json str iteritems).

(** X11: a failure of the transport comes out of [_execute] unchanged;
    the request counts as sent and the server state is the one the
    transport left. *)
Theorem execute_transport_failure
    (environ : gmap string string) (self : Client) (action : string)
    (path : path_t) (data : json) (query : option (gmap string json))
    (w : World) (e : exn) :
  well_formed self →
  let p := wire to_json self action path data query in
  (send p (net w)).1 = Raise e →
  let out := execute environ self action path data query w in
  out.1 = Raise e
  ∧ sent out.2 = (sent w ++ [p])%list
  ∧ net out.2 = (send p (net w)).2.
Proof.
  intros Hwf p Hsend out.
  destruct (world_of environ self action path data query w Hwf)
    as [Ha [Hn Hs]].
  subst out. rewrite Ha, Hn, Hs. unfold answer. fold p.
  rewrite Hsend. auto.
Qed.

(** X12: a body that does not parse makes [_execute] raise the parser's
    error, whatever the status code; the request has been sent by then. *)
Theorem execute_parse_failure
    (environ : gmap string string) (self : Client) (action : string)
    (path : path_t) (data : json) (query : option (gmap string json))
    (w : World) (response : Response) (e : exn) :
  well_formed self →
  let p := wire to_json self action path data query in
  (send p (net w)).1 = Ok response →
  parse_json (text response) = Raise e →
  let out := execute environ self action path data query w in
  out.1 = Raise e ∧ sent out.2 = (sent w ++ [p])%list.
Proof.
  intros Hwf p Hsend Hparse out.
  destruct (world_of environ self action path data query w Hwf)
    as [Ha [_ Hs]].
  subst out. rewrite Ha, Hs. unfold answer. fold p.
  rewrite Hsend, Hparse. auto.
Qed.

(** X13: [_execute] returns a value exactly when the server answered the
    request with a 2xx status and a body that parses to a mapping with a
    [resource] entry; the value is that entry. *)
Theorem execute_returns_iff
    (environ : gmap string string) (self : Client) (action : string)
    (path : path_t) (data : json) (query : option (gmap string json))
    (w : World) (v : json) :
  well_formed self →
  let p := wire to_json self action path data query in
  (execute environ self action path data query w).1 = Ok v
  ↔ ∃ response m,
      (send p (net w)).1 = Ok response
      ∧ is_success (status_code response)
      ∧ parse_json (text response) = Ok (JObj m)
      ∧ m !! "resource" = Some v.
Proof.
  intros Hwf p.
  destruct (world_of environ self action path data query w Hwf)
    as [Ha _].
  rewrite Ha. unfold answer. fold p. split.
  - destruct (send p (net w)).1 as [ response | e ];
      [ | intros H; discriminate H ].
    destruct (parse_json (text response)) as [ d | e ] eqn:E;
      [ | intros H; discriminate H ].
    intros H. apply handle_response_ok_inv in H.
    destruct H as [Hs [m [-> Hm]]]. exists response, m. auto.
  - intros [response [m [Hsend [Hs [Hparse Hm]]]]].
    rewrite Hsend, Hparse. unfold _handle_response.
    rewrite (success_test _ Hs). simpl. rewrite Hm. reflexivity.
Qed.

(** X14: when the server answers outside 2xx with a body that parses,
    [_execute] raises an error of the taxonomy holding the parsed body. *)
Theorem execute_raises_taxonomy
    (environ : gmap string string) (self : Client) (action : string)
    (path : path_t) (data : json) (query : option (gmap string json))
    (w : World) (response : Response) (d : json) :
  well_formed self →
  let p := wire to_json self action path data query in
  (send p (net w)).1 = Ok response →
  ¬ is_success (status_code response) →
  parse_json (text response) = Ok d →
  ∃ cls, (execute environ self action path data query w).1
         = Raise (Exn cls d)
         ∧ is_fauna_error cls = true.
Proof.
  intros Hwf p Hsend Hs Hparse.
  destruct (world_of environ self action path data query w Hwf)
    as [Ha _].
  rewrite Ha. unfold answer. fold p. rewrite Hsend, Hparse.
  unfold _handle_response. rewrite (not_success_test _ Hs).
  repeat match goal with
         | |- context [ if ?c then _ else _ ] => destruct c
         end;
    eexists; split; reflexivity.
Qed.

(** *** The verbs *)

(** X15: [post], [put], [patch] and [delete] each send one request: their
    own verb, the URL of the path, no parameters, the serialised [data] as
    body (also when [data] is [None]), under the client's session. *)
Theorem body_verbs_request
    (environ : gmap string string) (self : Client) (path : path_t)
    (data : json) (w : World) :
  well_formed self →
  let req verb :=
    prepare_request (session self)
      (mkRequest verb (base_url self ++ "/" ++ path_string path) None
         (to_json false data)) in
  sent (post send time elapsed_ms to_json parse_json str iteritems
          environ self path data w).2 = (sent w ++ [req "POST"])%list
  ∧ sent (put send time elapsed_ms to_json parse_json str iteritems
            environ self path data w).2 = (sent w ++ [req "PUT"])%list
  ∧ sent (patch send time elapsed_ms to_json parse_json str iteritems
            environ self path data w).2 = (sent w ++ [req "PATCH"])%list
  ∧ sent (delete send time elapsed_ms to_json parse_json str iteritems
            environ self path data w).2 = (sent w ++ [req "DELETE"])%list.
Proof.
  intros Hwf req. unfold post, put, patch, delete.
  repeat split;
    match goal with
    | |- context [ _execute _ _ _ _ _ _ _ ?e ?s ?a ?p ?d ?q w ] =>
        destruct (world_of e s a p d q w Hwf) as [_ [_ Hs]]; exact Hs
    end.
Qed.

(** X16: [get] sends one GET whose body is the serialisation of [None]
    and whose parameters are the query without its [None] values. *)
Theorem get_request
    (environ : gmap string string) (self : Client) (path : path_t)
    (query : option (gmap string json)) (w : World) :
  well_formed self →
  sent (get send time elapsed_ms to_json parse_json str iteritems
          environ self path query w).2
  = (sent w ++
       [prepare_request (session self)
          (mkRequest "GET" (base_url self ++ "/" ++ path_string path)
             (drop_none <$> query) (to_json false JNull))])%list.
Proof.
  intros Hwf. unfold get.
  destruct (world_of environ self "GET" path JNull query w Hwf)
    as [_ [_ Hs]].
  exact Hs.
Qed.

(** X17: [query] sends one POST to the empty path, so to the base URL
    followed by a slash, with the serialised expression as body and no
    parameters; it returns what [post] to the empty path returns. *)
Theorem query_request
    (environ : gmap string string) (self : Client) (expression : json)
    (w : World) :
  well_formed self →
  sent (query send time elapsed_ms to_json parse_json str iteritems
          environ self expression w).2
  = (sent w ++
       [prepare_request (session self)
          (mkRequest "POST" (base_url self ++ "/") None
             (to_json false expression))])%list
  ∧ query send time elapsed_ms to_json parse_json str iteritems
      environ self expression w
    = post send time elapsed_ms to_json parse_json str iteritems
        environ self (PathStr "") expression w.
Proof.
  intros Hwf. split; [ | reflexivity ].
  unfold query.
  destruct (world_of environ self "POST" (PathStr "") expression None w
              Hwf) as [_ [_ Hs]].
  rewrite Hs. reflexivity.
Qed.

(** X18: a query whose values are all [None] (the empty query among
    them) goes out as an empty mapping of parameters, not as no mapping. *)
Theorem execute_all_none_query
    (environ : gmap string string) (self : Client) (action : string)
    (path : path_t) (data : json) (q : gmap string json) (w : World) :
  well_formed self →
  (∀ k v, q !! k = Some v → v = JNull) →
  ∃ p, sent (execute environ self action path data (Some q) w).2
       = (sent w ++ [p])%list
    ∧ params (request p) = Some ∅.
Proof.
  intros Hwf Hall.
  destruct (world_of environ self action path data (Some q) w Hwf)
    as [_ [_ Hs]].
  eexists. split; [ exact Hs | ].
  simpl. f_equal. apply map_eq. intros k.
  rewrite lookup_empty. apply drop_none_absent.
  destruct (q !! k) as [ v | ] eqn:E; [ right | left; reflexivity ].
  rewrite (Hall k v E). reflexivity.
Qed.
End Outcome.

(** ** Lines and indentation *)

Lemma append_assoc3 (a b c : string) : (a ++ b) ++ c = a ++ (b ++ c).
Proof.
  induction a as [ | x a IH ]; [ reflexivity | ].
  change (String x ((a ++ b) ++ c) = String x (a ++ (b ++ c))).
  f_equal. exact IH.
Qed.

Lemma contains_append (c : ascii) (a b : string) :
  contains c (a ++ b) = contains c a || contains c b.
Proof.
  induction a as [ | x a IH ]; simpl; [ reflexivity | ].
  rewrite IH. apply orb_assoc.
Qed.

Lemma split_nonempty (sep : ascii) (k : option nat) (s : string) :
  split sep k s ≠ [].
Proof.
  destruct s as [ | a r ]; simpl; [ discriminate | ].
  destruct (match k with Some O => false | _ => Ascii.eqb a sep end);
    [ discriminate | ].
  destruct (split sep k r); discriminate.
Qed.

Lemma split_pieces_free (sep : ascii) (s : string) :
  Forall (λ p, contains sep p = false) (split sep None s).
Proof.
  induction s as [ | a r IH ]; simpl.
  - constructor; [ reflexivity | constructor ].
  - destruct (Ascii.eqb a sep) eqn:E; simpl.
    + constructor; [ reflexivity | exact IH ].
    + destruct (split sep None r) as [ | h t ].
      * constructor; [ simpl; rewrite E; reflexivity | constructor ].
      * inversion IH; subst. constructor; [ | assumption ].
        simpl. rewrite E. assumption.
Qed.

Lemma split_piece_then (sep : ascii) (p rest : string) :
  contains sep p = false →
  split sep None (p ++ String sep rest) = p :: split sep None rest.
Proof.
  induction p as [ | a p IH ]; simpl; intros H.
  - rewrite Ascii.eqb_refl. reflexivity.
  - apply orb_false_elim in H. destruct H as [Ha Hp].
    rewrite Ha, (IH Hp). reflexivity.
Qed.

Lemma split_of_join (sep : ascii) (pieces : list string) :
  pieces ≠ [] →
  Forall (λ p, contains sep p = false) pieces →
  split sep None (join (String sep EmptyString) pieces) = pieces.
Proof.
  unfold join.
  induction pieces as [ | p rest IH ]; intros Hne Hfree;
    [ contradiction | ].
  inversion Hfree as [ | ? ? Hp Hrest ]; subst.
  destruct rest as [ | q rest ].
  - simpl. apply split_no_separator. exact Hp.
  - change (String.concat (String sep "") (p :: q :: rest))
      with (p ++ String sep (String.concat (String sep "") (q :: rest))).
    rewrite (split_piece_then sep p _ Hp).
    rewrite IH; [ reflexivity | discriminate | exact Hrest ].
Qed.

(** Cutting a text at a separator and joining the pieces with that
    separator gives the text back. *)
Lemma join_split (sep : ascii) (s : string) :
  join (String sep EmptyString) (split sep None s) = s.
Proof.
  unfold join.
  induction s as [ | a r IH ]; simpl; [ reflexivity | ].
  destruct (Ascii.eqb a sep) eqn:E; simpl.
  - apply Ascii.eqb_eq in E. subst a.
    pose proof (split_nonempty sep None r) as Hne.
    destruct (split sep None r) as [ | h t ]; [ contradiction | ].
    rewrite IH. reflexivity.
  - pose proof (split_nonempty sep None r) as Hne.
    destruct (split sep None r) as [ | h t ]; [ contradiction | ].
    destruct t as [ | h' t ]; simpl in *; rewrite <- IH; reflexivity.
Qed.

Lemma indent_as_join (pieces : list string) :
  pieces ≠ [] →
  indent_str ++ join (newline_str ++ indent_str) pieces
  = join newline_str ((λ l, indent_str ++ l) <$> pieces).
Proof.
  unfold join.
  induction pieces as [ | p rest IH ]; intros Hne; [ contradiction | ].
  destruct rest as [ | q rest ]; [ reflexivity | ].
  change (String.concat (newline_str ++ indent_str) (p :: q :: rest))
    with (p ++ (newline_str ++ indent_str)
            ++ String.concat (newline_str ++ indent_str) (q :: rest)).
  change (String.concat newline_str
            ((λ l, indent_str ++ l) <$> p :: q :: rest))
    with ((indent_str ++ p) ++ newline_str
            ++ String.concat newline_str
                 ((λ l, indent_str ++ l) <$> q :: rest)).
  rewrite <- IH by discriminate.
  rewrite !append_assoc3. reflexivity.
Qed.

(** X19: an indented message has the lines of the original, in order,
    each with two spaces in front: no line is lost, merged or left
    unindented, empty lines included. *)
Theorem indent_lines (logged : string) :
  split newline None (indent logged)
  = (λ l, indent_str ++ l) <$> split newline None logged.
Proof.
  unfold indent.
  rewrite (indent_as_join _ (split_nonempty newline None logged)).
  apply split_of_join.
  - pose proof (split_nonempty newline None logged) as Hne.
    destruct (split newline None logged); [ contradiction | discriminate ].
  - pose proof (split_pieces_free newline logged) as Hfree.
    induction Hfree as [ | p rest Hp Hrest IH ]; simpl; constructor.
    + rewrite contains_append, Hp. reflexivity.
    + exact IH.
Qed.

(** ** The log of a call *)

Section Transcript.
Context {NetState ClockState Time : Type}.
Variable send : PreparedRequest → NetState → result Response * NetState.
Variable time : ClockState → Time * ClockState.
Variable elapsed_ms : Time → Time → Z.
Variable to_json : bool → json → string.
Variable parse_json : string → result json.
Variable str : json → string.
Variable iteritems : gmap string json → list (string * json).

Local Abbreviation World := (@World NetState ClockState).
Local Abbreviation execute :=
  (_execute send time elapsed_ms to_json parse_json str iteritems).

Ltac run_logged H0 Hsend H1 Hparse :=
  unfold bind, debug, ret, now, session_send, lift; simpl;
  rewrite H0; simpl; rewrite Hsend; simpl; rewrite H1; simpl;
  rewrite Hparse; simpl;
  rewrite <- ?app_assoc; auto.

(** X20: with one logger and a response that parses, whatever its
    status code, the log gains the request lines, written before the
    request is sent, and then the three response lines.  The query string
    of the first line lists the parameters in the order the dict yields
    them; the processing time of the last line is the response header of
    that name, whatever its case; its latency is taken between the clock
    reading just before the send and the one just after, and the clock is
    read exactly twice. *)
Theorem execute_transcript
    (environ : gmap string string) (self : Client) (action : string)
    (path : path_t) (data : json) (query : option (gmap string json))
    (w : World) (lg : Logger) (response : Response) (n : NetState)
    (d : json) (t0 t1 : Time) (c1 c2 : ClockState) :
  well_formed self →
  logger self = Some lg →
  _debug_logger environ = None →
  time (clock w) = (t0, c1) →
  time c1 = (t1, c2) →
  send (wire to_json self action path data query) (net w)
  = (Ok response, n) →
  parse_json (text response) = Ok d →
  let out := execute environ self action path data query w in
  log_lines out.2
  = app (log_lines w)
      ((λ line, (lg, line)) <$>
         app (request_log str iteritems to_json self action path data query)
             (response_log to_json response d (elapsed_ms t0 t1)))
  ∧ clock out.2 = c2.
Proof.
  intros Hwf Hl Hd H0 H1 Hsend Hparse out. subst out.
  unfold _execute. rewrite bool_decide_eq_true_2 by (left; congruence).
  unfold _log, _execute_without_logging. rewrite Hl, Hd.
  unfold wire in Hsend. fold (path_string path).
  unfold well_formed in Hwf.
  unfold request_log, response_log, credentials_line.
  destruct (auth (session self)) as [ t | ].
  - destruct t as [ | u [ | p [ | x t ] ] ]; try discriminate Hwf.
    destruct (truthy data); run_logged H0 Hsend H1 Hparse.
  - destruct (truthy data); run_logged H0 Hsend H1 Hparse.
Qed.

(** X21: when the body does not parse, the log gains the request lines
    only: nothing about the response is logged, not even its status. *)
Theorem execute_transcript_unparsed
    (environ : gmap string string) (self : Client) (action : string)
    (path : path_t) (data : json) (query : option (gmap string json))
    (w : World) (lg : Logger) (response : Response) (n : NetState)
    (e : exn) (t0 t1 : Time) (c1 c2 : ClockState) :
  well_formed self →
  logger self = Some lg →
  _debug_logger environ = None →
  time (clock w) = (t0, c1) →
  time c1 = (t1, c2) →
  send (wire to_json self action path data query) (net w)
  = (Ok response, n) →
  parse_json (text response) = Raise e →
  let out := execute environ self action path data query w in
  log_lines out.2
  = app (log_lines w)
      ((λ line, (lg, line)) <$>
         request_log str iteritems to_json self action path data query).
Proof.
  intros Hwf Hl Hd H0 H1 Hsend Hparse out. subst out.
  unfold _execute. rewrite bool_decide_eq_true_2 by (left; congruence).
  unfold _log, _execute_without_logging. rewrite Hl, Hd.
  unfold wire in Hsend. fold (path_string path).
  unfold well_formed in Hwf.
  unfold request_log, credentials_line.
  destruct (auth (session self)) as [ t | ].
  - destruct t as [ | u [ | p [ | x t ] ] ]; try discriminate Hwf.
    destruct (truthy data); run_logged H0 Hsend H1 Hparse.
  - destruct (truthy data); run_logged H0 Hsend H1 Hparse.
Qed.
End Transcript.

(** ** The further properties at work in the sample world *)

Local Abbreviation sample_execute :=
  (_execute Sample.send Sample.time Sample.elapsed_ms Sample.to_json
     Sample.parse_json Sample.str Sample.iteritems).

Lemma execute_silent_witness :
  let out :=
    sample_execute ∅ Sample.silent "GET" (PathStr "ping") JNull None
      Sample.world in
  log_lines out.2 = log_lines Sample.world
  ∧ clock out.2 = clock Sample.world
  ∧ sent out.2
    = (sent Sample.world ++
         [wire Sample.to_json Sample.silent "GET" (PathStr "ping") JNull
            None])%list.
Proof.
  apply (execute_silent Sample.send Sample.time Sample.elapsed_ms
           Sample.to_json Sample.parse_json Sample.str Sample.iteritems ∅ Sample.silent
           "GET" (PathStr "ping") JNull None Sample.world).
  - reflexivity.
  - reflexivity.
  - reflexivity.
Defined.

Lemma execute_tampered_credentials_witness :
  let out :=
    sample_execute ∅ Sample.tampered "GET" (PathStr "ping") JNull None
      Sample.world in
  out.1 = Raise (Exn TypeError JNull)
  ∧ sent out.2 = sent Sample.world
  ∧ net out.2 = net Sample.world.
Proof.
  apply (execute_tampered_credentials Sample.send Sample.time
           Sample.elapsed_ms Sample.to_json Sample.parse_json Sample.str Sample.iteritems
           ∅ Sample.tampered "GET" (PathStr "ping") JNull None
           Sample.world ["u"; "p"; "q"]).
  - left. simpl. discriminate.
  - reflexivity.
  - simpl. lia.
Defined.

Lemma execute_transport_failure_witness :
  let p := wire Sample.to_json Sample.self "GET" (PathStr "ping") JNull
             None in
  let out :=
    _execute Sample.refuse Sample.time Sample.elapsed_ms Sample.to_json
      Sample.parse_json Sample.str Sample.iteritems ∅ Sample.self "GET" (PathStr "ping")
      JNull None Sample.world in
  out.1 = Raise (Exn ConnectionError (JStr "refused"))
  ∧ sent out.2 = (sent Sample.world ++ [p])%list
  ∧ net out.2 = (Sample.refuse p (net Sample.world)).2.
Proof.
  apply (execute_transport_failure Sample.refuse Sample.time
           Sample.elapsed_ms Sample.to_json Sample.parse_json Sample.str Sample.iteritems
           ∅ Sample.self "GET" (PathStr "ping") JNull None Sample.world
           (Exn ConnectionError (JStr "refused"))).
  - reflexivity.
  - reflexivity.
Defined.

Lemma execute_parse_failure_witness :
  let p := wire Sample.to_json Sample.self "GET" (PathStr "ping") JNull
             None in
  let out :=
    _execute Sample.send Sample.time Sample.elapsed_ms Sample.to_json
      Sample.garbled Sample.str Sample.iteritems ∅ Sample.self "GET" (PathStr "ping")
      JNull None Sample.world in
  out.1 = Raise (Exn ValueError (JStr "{}"))
  ∧ sent out.2 = (sent Sample.world ++ [p])%list.
Proof.
  apply (execute_parse_failure Sample.send Sample.time
           Sample.elapsed_ms Sample.to_json Sample.garbled Sample.str Sample.iteritems
           ∅ Sample.self "GET" (PathStr "ping") JNull None Sample.world
           (mkResponse 200 ∅ "{}") (Exn ValueError (JStr "{}"))).
  - reflexivity.
  - reflexivity.
  - reflexivity.
Defined.

Lemma execute_returns_iff_witness :
  (sample_execute ∅ Sample.self "GET" (PathStr "classes/frogs/123") JNull
     None Sample.world).1 = Ok Sample.frog.
Proof.
  apply (execute_returns_iff Sample.send Sample.time Sample.elapsed_ms
           Sample.to_json Sample.parse_json Sample.str Sample.iteritems ∅ Sample.self
           "GET" (PathStr "classes/frogs/123") JNull None Sample.world
           Sample.frog).
  - reflexivity.
  - exists (mkResponse 200 ∅ "{}"), (<["resource" := Sample.frog]> ∅).
    split; [ reflexivity | ].
    split; [ unfold is_success; simpl; lia | ].
    split; reflexivity.
Defined.

Lemma execute_raises_taxonomy_witness :
  ∃ cls,
    (_execute Sample.unavailable Sample.time Sample.elapsed_ms
       Sample.to_json Sample.parse_json Sample.str Sample.iteritems ∅ Sample.self "GET"
       (PathStr "ping") JNull None Sample.world).1
    = Raise (Exn cls (JObj (<["resource" := Sample.frog]> ∅)))
    ∧ is_fauna_error cls = true.
Proof.
  apply (execute_raises_taxonomy Sample.unavailable Sample.time
           Sample.elapsed_ms Sample.to_json Sample.parse_json Sample.str Sample.iteritems
           ∅ Sample.self "GET" (PathStr "ping") JNull None Sample.world
           (mkResponse 503 ∅ "{}")).
  - reflexivity.
  - reflexivity.
  - unfold is_success. simpl. lia.
  - reflexivity.
Defined.

Lemma body_verbs_request_witness :
  let req verb :=
    prepare_request (session Sample.self)
      (mkRequest verb "https://rest.faunadb.com:443/classes/frogs" None
         (Sample.to_json false Sample.frog)) in
  sent (post Sample.send Sample.time Sample.elapsed_ms Sample.to_json
          Sample.parse_json Sample.str Sample.iteritems ∅ Sample.self
          (PathRef (mkRef "classes/frogs")) Sample.frog Sample.world).2
  = [req "POST"]
  ∧ sent (put Sample.send Sample.time Sample.elapsed_ms Sample.to_json
            Sample.parse_json Sample.str Sample.iteritems ∅ Sample.self
            (PathRef (mkRef "classes/frogs")) Sample.frog Sample.world).2
    = [req "PUT"]
  ∧ sent (patch Sample.send Sample.time Sample.elapsed_ms Sample.to_json
            Sample.parse_json Sample.str Sample.iteritems ∅ Sample.self
            (PathRef (mkRef "classes/frogs")) Sample.frog Sample.world).2
    = [req "PATCH"]
  ∧ sent (delete Sample.send Sample.time Sample.elapsed_ms Sample.to_json
            Sample.parse_json Sample.str Sample.iteritems ∅ Sample.self
            (PathRef (mkRef "classes/frogs")) Sample.frog Sample.world).2
    = [req "DELETE"].
Proof.
  apply (body_verbs_request Sample.send Sample.time Sample.elapsed_ms
           Sample.to_json Sample.parse_json Sample.str Sample.iteritems ∅ Sample.self
           (PathRef (mkRef "classes/frogs")) Sample.frog Sample.world).
  reflexivity.
Defined.

Lemma get_request_witness :
  sent (get Sample.send Sample.time Sample.elapsed_ms Sample.to_json
          Sample.parse_json Sample.str Sample.iteritems ∅ Sample.self (PathStr "ping")
          (Some (<["scope" := JStr "node"]> ∅)) Sample.world).2
  = [ prepare_request (session Sample.self)
        (mkRequest "GET" "https://rest.faunadb.com:443/ping"
           (drop_none <$> Some (<["scope" := JStr "node"]> ∅)) "null") ].
Proof.
  apply (get_request Sample.send Sample.time Sample.elapsed_ms
           Sample.to_json Sample.parse_json Sample.str Sample.iteritems ∅ Sample.self
           (PathStr "ping") (Some (<["scope" := JStr "node"]> ∅))
           Sample.world).
  reflexivity.
Defined.

Lemma query_request_witness :
  sent (query Sample.send Sample.time Sample.elapsed_ms Sample.to_json
          Sample.parse_json Sample.str Sample.iteritems ∅ Sample.self (JStr "expr")
          Sample.world).2
  = [ prepare_request (session Sample.self)
        (mkRequest "POST" "https://rest.faunadb.com:443/" None "expr") ]
  ∧ query Sample.send Sample.time Sample.elapsed_ms Sample.to_json
      Sample.parse_json Sample.str Sample.iteritems ∅ Sample.self (JStr "expr")
      Sample.world
    = post Sample.send Sample.time Sample.elapsed_ms Sample.to_json
        Sample.parse_json Sample.str Sample.iteritems ∅ Sample.self (PathStr "")
        (JStr "expr") Sample.world.
Proof.
  apply (query_request Sample.send Sample.time Sample.elapsed_ms
           Sample.to_json Sample.parse_json Sample.str Sample.iteritems ∅ Sample.self
           (JStr "expr") Sample.world).
  reflexivity.
Defined.

Lemma execute_all_none_query_witness :
  ∃ p, sent (sample_execute ∅ Sample.self "GET" (PathStr "ping") JNull
               (Some (<["scope" := JNull]> (<["timeout" := JNull]> ∅)))
               Sample.world).2
       = (sent Sample.world ++ [p])%list
    ∧ params (request p) = Some ∅.
Proof.
  apply (execute_all_none_query Sample.send Sample.time Sample.elapsed_ms
           Sample.to_json Sample.parse_json Sample.str Sample.iteritems ∅ Sample.self
           "GET" (PathStr "ping") JNull
           (<["scope" := JNull]> (<["timeout" := JNull]> ∅))
           Sample.world).
  - reflexivity.
  - intros k v.
    destruct (decide (k = "scope")) as [ -> | Hs ].
    + rewrite lookup_insert_eq. congruence.
    + rewrite lookup_insert_ne by congruence.
      destruct (decide (k = "timeout")) as [ -> | Ht ].
      * rewrite lookup_insert_eq. congruence.
      * rewrite lookup_insert_ne by congruence.
        rewrite lookup_empty. discriminate.
Defined.

Lemma execute_transcript_witness :
  let out :=
    sample_execute ∅ Sample.self "GET" (PathStr "ping") JNull None
      Sample.world in
  log_lines out.2
  = app (log_lines Sample.world)
      ((λ line, (getLogger "app", line)) <$>
         app (request_log Sample.str Sample.iteritems Sample.to_json Sample.self "GET"
                (PathStr "ping") JNull None)
             (response_log Sample.to_json (mkResponse 200 ∅ "{}")
                (JObj (<["resource" := Sample.frog]> ∅))
                (Sample.elapsed_ms 0 7)))
  ∧ clock out.2 = 14.
Proof.
  apply (execute_transcript Sample.send Sample.time Sample.elapsed_ms
           Sample.to_json Sample.parse_json Sample.str Sample.iteritems ∅ Sample.self
           "GET" (PathStr "ping") JNull None Sample.world
           (getLogger "app") (mkResponse 200 ∅ "{}") 1%nat
           (JObj (<["resource" := Sample.frog]> ∅)) 0 7 7 14);
    reflexivity.
Defined.

Lemma execute_transcript_unparsed_witness :
  let out :=
    _execute Sample.send Sample.time Sample.elapsed_ms Sample.to_json
      Sample.garbled Sample.str Sample.iteritems ∅ Sample.self "GET" (PathStr "ping")
      JNull None Sample.world in
  log_lines out.2
  = app (log_lines Sample.world)
      ((λ line, (getLogger "app", line)) <$>
         request_log Sample.str Sample.iteritems Sample.to_json Sample.self "GET"
           (PathStr "ping") JNull None).
Proof.
  apply (execute_transcript_unparsed Sample.send Sample.time
           Sample.elapsed_ms Sample.to_json Sample.garbled Sample.str Sample.iteritems ∅
           Sample.self "GET" (PathStr "ping") JNull None Sample.world
           (getLogger "app") (mkResponse 200 ∅ "{}") 1%nat
           (Exn ValueError (JStr "{}")) 0 7 7 14);
    reflexivity.
Defined.

(** The processing time is found under a lower-cased header name. *)
Example sample_processing_time_logged :
  last (log_lines
          (_execute Sample.timed Sample.time Sample.elapsed_ms
             Sample.to_json Sample.parse_json Sample.str Sample.iteritems
             ∅ Sample.self "GET" (PathStr "ping") JNull None
             Sample.world).2)
  = Some (getLogger "app",
          "  Response (200): API processing 12ms, network latency 7ms").
Proof. vm_compute. reflexivity. Qed.

(** The query string follows the order in which the dict yields its
    items. *)
Example query_string_follows_iteritems :
  _query_string_for_logging Sample.str
    (λ d, [("ts", JNum 1); ("size", JNum 2)])
    (Some (<["size" := JNum 2]> (<["ts" := JNum 1]> ∅)))
  = "?ts=1&size=2".
Proof. vm_compute. reflexivity. Qed.

Example lower_header_name :
  lower "X-HTTP-Request-Processing-Time"
  = "x-http-request-processing-time".
Proof. reflexivity. Qed.
